(** * Migration-path pipeline of [build_migration_paths.py]

    A shallow embedding of the pure function chain
    aggregate -> filter -> normalize -> cluster -> extremes -> path -> smooth
    and of its orchestration, followed by the properties of the pipeline.

    Modelling conventions.
    - Python numbers (the ints and floats that [json.load] yields) are
      exact rationals in canonical form ([Qc]); Python's [==] on numbers is
      then Leibniz equality.  Rounding error of binary64 is outside the
      model.
    - A [dict] is its list of items in insertion order; a Python dict never
      holds a key twice, which is the predicate [dict_wf].
    - A call either returns a value or raises: [result].                     *)

From Stdlib Require Import String.
From Stdlib Require Import List ZArith QArith Qcanon Qround Bool Lia Lqa.
Import ListNotations.

Set Implicit Arguments.

(** ** Python values and the exceptions the pipeline can raise *)

Module Py.

Inductive exn : Type :=
| ValueError
| ZeroDivisionError
| IndexError.

Inductive result (A : Type) : Type :=
| Ok (a : A)
| Raise (e : exn).

Arguments Ok {A} a.
Arguments Raise {A} e.

Definition bind {A B : Type} (m : result A) (k : A -> result B) : result B :=
  match m with
  | Ok a => k a
  | Raise e => Raise e
  end.

Fixpoint mapM {A B : Type} (f : A -> result B) (l : list A)
  : result (list B) :=
  match l with
  | [] => Ok []
  | x :: r =>
      bind (f x) (fun y => bind (mapM f r) (fun ys => Ok (y :: ys)))
  end.

(** Numbers. *)

Definition num : Type := Qc.

Definition of_Z (z : Z) : num := Q2Qc (inject_Z z).

Definition num_leb (x y : num) : bool := Qle_bool x y.
Definition num_ltb (x y : num) : bool := negb (Qle_bool y x).
Definition num_eqb (x y : num) : bool := Qeq_bool x y.

(** [x / y]: true division, raising on a zero divisor. *)
Definition py_div (x y : num) : result num :=
  if num_eqb y (of_Z 0) then Raise ZeroDivisionError else Ok (x / y)%Qc.

(** [sum(...)], which starts from 0 and adds from the left. *)
Definition py_sum (l : list num) : num :=
  fold_left Qcplus l (of_Z 0).

(** [max(l, key=key)]: the first item whose key is not exceeded. *)
Fixpoint max_from {A : Type} (key : A -> num) (best : A) (l : list A) : A :=
  match l with
  | [] => best
  | x :: r => max_from key (if num_ltb (key best) (key x) then x else best) r
  end.

Definition py_max {A : Type} (key : A -> num) (l : list A) : result A :=
  match l with
  | [] => Raise ValueError
  | x :: r => Ok (max_from key x r)
  end.

(** [sorted(l, key=key)]: the sort is stable, so its result is the one of
    stable insertion. *)
Fixpoint insert_by {A : Type} (key : A -> num) (x : A) (l : list A) : list A :=
  match l with
  | [] => [x]
  | y :: r =>
      if num_leb (key x) (key y) then x :: y :: r
      else y :: insert_by key x r
  end.

Fixpoint sorted {A : Type} (key : A -> num) (l : list A) : list A :=
  match l with
  | [] => []
  | x :: r => insert_by key x (sorted key r)
  end.

(** [range(n)] *)
Definition range (n : Z) : list Z :=
  map Z.of_nat (seq 0 (Z.to_nat n)).

(** List indexing [l[i]] and item assignment [l[i] = v], with negative
    indices counted from the end. *)
Definition norm_index {A : Type} (l : list A) (i : Z) : option nat :=
  let n := Z.of_nat (length l) in
  let j := if (i <? 0)%Z then (i + n)%Z else i in
  if ((j <? 0) || (n <=? j))%Z then None else Some (Z.to_nat j).

Definition list_get {A : Type} (l : list A) (i : Z) : result A :=
  match norm_index l i with
  | None => Raise IndexError
  | Some j =>
      match nth_error l j with
      | Some x => Ok x
      | None => Raise IndexError
      end
  end.

Fixpoint replace_nth {A : Type} (l : list A) (j : nat) (v : A) : list A :=
  match l, j with
  | [], _ => []
  | _ :: r, O => v :: r
  | x :: r, S j' => x :: replace_nth r j' v
  end.

Definition list_set {A : Type} (l : list A) (i : Z) (v : A)
  : result (list A) :=
  match norm_index l i with
  | None => Raise IndexError
  | Some j => Ok (replace_nth l j v)
  end.

(** Slicing [l[start:stop]]: a bound below zero counts from the end, and
    both bounds are clamped to the list. *)
Definition clamp_bound {A : Type} (l : list A) (i : Z) : nat :=
  let n := Z.of_nat (length l) in
  let j := if (i <? 0)%Z then (i + n)%Z else i in
  Z.to_nat (Z.min n (Z.max 0 j)).

Definition py_slice {A : Type} (l : list A) (start stop : Z) : list A :=
  let a := clamp_bound l start in
  let b := clamp_bound l stop in
  firstn (b - a) (skipn a l).

(** [round(x, 3)]: to the nearest multiple of 1/1000, a tie going to the
    even one. *)
Definition py_round3 (x : num) : num :=
  let s := (x * of_Z 1000)%Qc in
  let f := Qfloor s in
  let r := (s - of_Z f)%Qc in
  let half := Q2Qc (1 # 2) in
  let up :=
    if num_ltb r half then false
    else if num_ltb half r then true
    else negb (Z.even f) in
  (of_Z (if up then f + 1 else f) / of_Z 1000)%Qc.

End Py.

Export Py.

Notation "x <- m ;; k" := (bind m (fun x => k))
  (at level 61, m at next level, right associativity).

(** ** Data model *)

(** A grid cell centre [(lon, lat)]. *)
Definition point : Type := (num * num)%type.

Definition lon (p : point) : num := fst p.
Definition lat (p : point) : num := snd p.

Definition point_eqb (p q : point) : bool :=
  num_eqb (lon p) (lon q) && num_eqb (lat p) (lat q).

(** A density map, [Dict[Tuple[float, float], float]]. *)
Definition dict : Type := list (point * num).

Definition keys (d : dict) : list point := map fst d.
Definition values (d : dict) : list num := map snd d.

Definition dict_wf (d : dict) : Prop := NoDup (keys d).

(** [d.get(k, default)] *)
Fixpoint dict_get (d : dict) (k : point) (default : num) : num :=
  match d with
  | [] => default
  | (k', v') :: r => if point_eqb k' k then v' else dict_get r k default
  end.

(** [d[k] = v]: an existing key keeps its place, a new one goes last. *)
Fixpoint dict_set (d : dict) (k : point) (v : num) : dict :=
  match d with
  | [] => [(k, v)]
  | (k', v') :: r =>
      if point_eqb k' k then (k', v) :: r else (k', v') :: dict_set r k v
  end.

(** The truth value of a container: empty is false. *)
Definition truthy {A : Type} (l : list A) : bool :=
  match l with
  | [] => false
  | _ :: _ => true
  end.

(** ** [aggregate_density_over_time] *)

Definition cell : Type := (num * num * num)%type.

Record frame : Type := mkFrame {
  week : string;
  cells : list cell
}.

Definition aggregate_cell (density_map : dict) (c : cell) : dict :=
  let '(lon, lat, density) := c in
  let key := (lon, lat) in
  dict_set density_map key (dict_get density_map key (of_Z 0) + density)%Qc.

Definition aggregate_density_over_time (frames : list frame) : dict :=
  fold_left (fun density_map fr => fold_left aggregate_cell (cells fr) density_map)
            frames [].

(** ** [normalize_densities] *)

Definition normalize_densities (density_map : dict) : result dict :=
  if negb (truthy density_map) then Ok []
  else
    max_density <- py_max (fun v => v) (values density_map) ;;
    if num_eqb max_density (of_Z 0)
    then Ok (map (fun kv => (fst kv, of_Z 0)) density_map)
    else mapM (fun kv => q <- py_div (snd kv) max_density ;; Ok (fst kv, q))
              density_map.

(** ** [filter_geographic_regions] *)

(** An exclusion rectangle [((min_lon, max_lon), (min_lat, max_lat))]. *)
Definition region : Type := ((num * num) * (num * num))%type.

Definition in_region (p : point) (r : region) : bool :=
  let '((min_lon, max_lon), (min_lat, max_lat)) := r in
  num_leb min_lon (lon p) && num_leb (lon p) max_lon
  && num_leb min_lat (lat p) && num_leb (lat p) max_lat.

Definition filter_geographic_regions (density_map : dict)
  (exclude_regions : list region) : dict :=
  if negb (truthy exclude_regions) then density_map
  else
    fold_left
      (fun filtered kv =>
         if existsb (in_region (fst kv)) exclude_regions then filtered
         else dict_set filtered (fst kv) (snd kv))
      density_map [].

(** ** [cluster_by_longitude] *)

Record options : Type := mkOptions {
  num_clusters : Z;
  europe_only : bool;
  americas_south_limit : option num;
  americas_only : bool;
  africa_only_south : bool
}.

Definition default_options : options :=
  mkOptions 2 false None false false.

(** One turn of the loop over [density_map.items()] that fills [western]
    and [eastern]. *)
Definition cluster_step (o : options) (we : dict * dict) (kv : point * num)
  : dict * dict :=
  let '(western, eastern) := we in
  let '((lon, lat), density) := kv in
  if num_ltb lon (of_Z (-20)) then
    if match americas_south_limit o with
       | None => true
       | Some limit => num_leb limit lat
       end
    then (dict_set western (lon, lat) density, eastern)
    else (western, eastern)
  else
    if negb (americas_only o) then
      if europe_only o then
        if num_leb (of_Z (-10)) lon && num_leb lon (of_Z 45)
           && (num_leb (of_Z 35) lat && num_leb lat (of_Z 72))
        then (western, dict_set eastern (lon, lat) density)
        else (western, eastern)
      else if africa_only_south o then
        if num_leb (of_Z (-20)) lon && num_leb lon (of_Z 51)
        then (western, dict_set eastern (lon, lat) density)
        else (western, eastern)
      else (western, dict_set eastern (lon, lat) density)
    else (western, eastern).

Definition cluster_split (density_map : dict) (o : options) : dict * dict :=
  fold_left (cluster_step o) density_map ([], []).

(** The per-longitude totals [lon_density] and [sorted_lons] that the source
    computes first are never read, and are left out. *)
Definition cluster_by_longitude (density_map : dict) (o : options)
  : list dict :=
  if negb (truthy density_map) then []
  else
    let '(western, eastern) := cluster_split density_map o in
    let clusters := [] in
    let clusters := if truthy western then clusters ++ [western] else clusters in
    let clusters := if truthy eastern then clusters ++ [eastern] else clusters in
    clusters.

(** ** [find_extremes_in_cluster] *)

(** Returns [(north_point, south_point)]. *)
Definition find_extremes_in_cluster (density_map : dict)
  : result (point * point) :=
  if negb (truthy density_map) then Raise ValueError
  else
    let sorted_by_lat := sorted (fun x => lat (fst x)) density_map in
    s <- list_get sorted_by_lat 0 ;;
    let south_point := fst s in
    n <- list_get sorted_by_lat (-1) ;;
    let north_point := fst n in
    Ok (north_point, south_point).

(** ** [calculate_migration_path] *)

Definition two : num := of_Z 2.

(** One turn of the loop over [range(num_waypoints)]; [path.append] adds at
    the end.  The division by the literal 2 cannot raise. *)
Definition waypoint_step (density_map : dict) (south_point : point)
  (lat_south lat_step : num) (path : list point) (i : Z)
  : result (list point) :=
  let target_lat := (lat_south + of_Z i * lat_step)%Qc in
  let band_min := (target_lat - lat_step / two)%Qc in
  let band_max := (target_lat + lat_step / two)%Qc in
  let band_points :=
    filter (fun kv => num_leb band_min (lat (fst kv))
                      && num_leb (lat (fst kv)) band_max)
           density_map in
  if truthy band_points then
    best <- py_max (fun x => snd x) band_points ;;
    Ok (path ++ [fst best])
  else if truthy path then
    prev <- list_get path (-1) ;;
    Ok (path ++ [(lon prev, target_lat)])
  else
    Ok (path ++ [(lon south_point, target_lat)]).

Fixpoint for_each {S I : Type} (body : S -> I -> result S) (s : S)
  (l : list I) : result S :=
  match l with
  | [] => Ok s
  | i :: r => s' <- body s i ;; for_each body s' r
  end.

Definition point_neqb (p q : point) : bool := negb (point_eqb p q).

Definition calculate_migration_path (density_map : dict)
  (north_point south_point : point) (num_waypoints : Z)
  : result (list point) :=
  let lat_south := lat south_point in
  let lat_north := lat north_point in
  let lat_range := (lat_north - lat_south)%Qc in
  if num_leb lat_range (of_Z 0) then Ok [south_point; north_point]
  else
    lat_step <- py_div lat_range (of_Z (num_waypoints - 1)) ;;
    path <- for_each (waypoint_step density_map south_point lat_south lat_step)
                     [] (range num_waypoints) ;;
    first <- list_get path 0 ;;
    path <- (if point_neqb first south_point
             then list_set path 0 south_point else Ok path) ;;
    last <- list_get path (-1) ;;
    path <- (if point_neqb last north_point
             then list_set path (-1) north_point else Ok path) ;;
    Ok path.

(** ** [smooth_path] *)

Definition len {A : Type} (l : list A) : Z := Z.of_nat (length l).

(** One turn of the loop over [range(len(path))].  The two means are exact
    here; the binary64 quotient of the source can differ from them by a
    rounding. *)
Definition smooth_point (path : list point) (half_window i : Z)
  : result point :=
  let start := Z.max 0 (i - half_window) in
  let stop := Z.min (len path) (i + half_window + 1) in
  let window := py_slice path start stop in
  avg_lon <- py_div (py_sum (map lon window)) (of_Z (len window)) ;;
  avg_lat <- py_div (py_sum (map lat window)) (of_Z (len window)) ;;
  Ok (avg_lon, avg_lat).

Definition smooth_path (path : list point) (window_size : Z)
  : result (list point) :=
  if (len path <=? window_size)%Z then Ok path
  else
    let half_window := (window_size / 2)%Z in
    mapM (smooth_point path half_window) (range (len path)).

(** ** [build_migration_json] *)

Record path_record : Type := mkPathRecord {
  northPoint : point;
  southPoint : point;
  path : list point
}.

Record output_data : Type := mkOutput {
  speciesName : string;
  color : string;
  paths : list path_record
}.

Definition round_point (p : point) : point :=
  (py_round3 (lon p), py_round3 (lat p)).

Definition flyway (cluster : dict) : result path_record :=
  ns <- find_extremes_in_cluster cluster ;;
  let '(north_point, south_point) := ns in
  raw_path <- calculate_migration_path cluster north_point south_point 25 ;;
  smoothed_path <- smooth_path raw_path 5 ;;
  let path_coords := map round_point smoothed_path in
  Ok (mkPathRecord (round_point north_point) (round_point south_point)
                   path_coords).

(** The argument [frames] is [heatmap['frames']] as loaded from the input
    file.  The value returned is what the call leaves at [output_path]:
    [Ok None] when it returns without having opened the file,
    [Ok (Some data)] when it returns after writing [data], and [Raise e] when
    the exception [e] leaves the call.  Progress messages are not modelled. *)
Definition build_migration_json (frames : list frame)
  (species_name : string) (exclude_regions : list region)
  (o : options) : result (option output_data) :=
  let density_map := aggregate_density_over_time frames in
  if negb (truthy density_map) then Ok None
  else
    let density_map :=
      if truthy exclude_regions
      then filter_geographic_regions density_map exclude_regions
      else density_map in
    normalized <- normalize_densities density_map ;;
    let clusters := cluster_by_longitude normalized o in
    paths <- mapM flyway clusters ;;
    Ok (Some (mkOutput species_name "#8b0000"%string paths)).

(** ** Vocabulary of the properties *)

Section Ends.

Local Open Scope Qc_scope.

Context {A : Type}.
Variable key : A -> num.

(** [x] is the first item of [l] among those of least key. *)
Definition first_min (l : list A) (x : A) : Prop :=
  exists pre post,
    l = pre ++ x :: post
    /\ Forall (fun y => key x < key y) pre
    /\ Forall (fun y => key x <= key y) post.

(** [x] is the first item of [l] among those of greatest key. *)
Definition first_max (l : list A) (x : A) : Prop :=
  exists pre post,
    l = pre ++ x :: post
    /\ Forall (fun y => key y < key x) pre
    /\ Forall (fun y => key y <= key x) post.

(** [x] is the last item of [l] among those of greatest key. *)
Definition last_max (l : list A) (x : A) : Prop :=
  exists pre post,
    l = pre ++ x :: post
    /\ Forall (fun y => key y <= key x) pre
    /\ Forall (fun y => key y < key x) post.

End Ends.

(** The sort key of the extremes finder, [lambda x: x[0][1]]. *)
Definition lat_key (kv : point * num) : num := lat (fst kv).

(** The tests of the clustering loop that guard its two assignments. *)
Definition west_keep (o : options) (p : point) : bool :=
  num_ltb (lon p) (of_Z (-20))
  && match americas_south_limit o with
     | None => true
     | Some limit => num_leb limit (lat p)
     end.

Definition east_keep (o : options) (p : point) : bool :=
  negb (num_ltb (lon p) (of_Z (-20)))
  && negb (americas_only o)
  && (if europe_only o then
        num_leb (of_Z (-10)) (lon p) && num_leb (lon p) (of_Z 45)
        && (num_leb (of_Z 35) (lat p) && num_leb (lat p) (of_Z 72))
      else if africa_only_south o then
        num_leb (of_Z (-20)) (lon p) && num_leb (lon p) (of_Z 51)
      else true).

(** Membership of the two clusters as the specification words it. *)
Definition spec_western (o : options) (p : point) : Prop :=
  (lon p < of_Z (-20))%Qc
  /\ match americas_south_limit o with
     | None => True
     | Some limit => (limit <= lat p)%Qc
     end.

Definition spec_eastern (o : options) (p : point) : Prop :=
  (of_Z (-20) <= lon p)%Qc
  /\ americas_only o = false
  /\ (if europe_only o then
        ((of_Z (-10) <= lon p)%Qc /\ (lon p <= of_Z 45)%Qc)
        /\ ((of_Z 35 <= lat p)%Qc /\ (lat p <= of_Z 72)%Qc)
      else if africa_only_south o then
        (of_Z (-20) <= lon p)%Qc /\ (lon p <= of_Z 51)%Qc
      else True).

(** The result list with its empty clusters left out, western first. *)
Definition omit_empty (western eastern : dict) : list dict :=
  (if truthy western then [western] else [])
  ++ (if truthy eastern then [eastern] else []).

(** [m] is the greatest value held by the map. *)
Definition is_max_of (density_map : dict) (m : num) : Prop :=
  In m (values density_map)
  /\ forall v, In v (values density_map) -> (v <= m)%Qc.

(** Every density of the map is at least zero, as the data model has it. *)
Definition nonneg (density_map : dict) : Prop :=
  Forall (fun v => (of_Z 0 <= v)%Qc) (values density_map).

(** ** Sample data *)

Definition pt (x y : Z) : point := (of_Z x, of_Z y).

(** The clustering scenario [{(-30,10): 1, (30,10): 1}]. *)
Definition two_sides : dict := [(pt (-30) 10, of_Z 1); (pt 30 10, of_Z 1)].

(** The extremes scenario [{(0,5): 1, (0,-5): 1, (0,0): 1}]. *)
Definition three_lats : dict :=
  [(pt 0 5, of_Z 1); (pt 0 (-5), of_Z 1); (pt 0 0, of_Z 1)].

(** Two cells on the same, greatest and least, latitude. *)
Definition tied : dict := [(pt 0 5, of_Z 1); (pt 1 5, of_Z 1)].

(** A cluster of two cells 24 degrees of latitude apart. *)
Definition far_apart : dict := [(pt 0 0, of_Z 1); (pt 10 24, of_Z 1)].

(** The same two cells and, in the lowest band, a denser third one. *)
Definition rival : dict :=
  [(pt 0 0, of_Z 1); ((of_Z 5, Q2Qc (1 # 5)), of_Z 3); (pt 10 24, of_Z 1)].


Definition no_cell_frames : list frame := [mkFrame "2024-01-01" []].

Definition densities : dict := [(pt 0 0, of_Z 2); (pt 1 0, of_Z 8)].

(** A map with a negative value below a positive one, and one with a
    negative value below zero. *)
Definition mixed_signs : dict := [(pt 0 0, of_Z (-1)); (pt 1 0, of_Z 2)].

Definition below_zero : dict := [(pt 0 0, of_Z (-1)); (pt 1 0, of_Z 0)].

Definition six_points : list point :=
  [pt 0 0; pt 1 1; pt 5 2; pt 0 3; pt 0 4; pt 0 5].

Definition three_points : list point := [pt 0 0; pt 1 1; pt 5 2].


(** ** Vocabulary of the further properties *)

(** The coordinate pair and the density of a heatmap cell
    [[lon, lat, density]]. *)
Definition cell_point (c : cell) : point := (fst (fst c), snd (fst c)).
Definition cell_density (c : cell) : num := snd c.

(** All the cells of a heatmap, frame after frame. *)
Definition all_cells (frames : list frame) : list cell :=
  flat_map cells frames.

(** [p] lies in the rectangle [r], bounds included. *)
Definition inside (p : point) (r : region) : Prop :=
  ((fst (fst r) <= lon p)%Qc /\ (lon p <= snd (fst r))%Qc)
  /\ ((fst (snd r) <= lat p)%Qc /\ (lat p <= snd (snd r))%Qc).

(** A check that no point occurs twice in a list. *)
Fixpoint distinctb (l : list point) : bool :=
  match l with
  | [] => true
  | x :: r => negb (existsb (point_eqb x) r) && distinctb r
  end.

(** The target latitude of band [i] and the band around it. *)
Definition target_lat (lat_south lat_step : num) (i : Z) : num :=
  (lat_south + of_Z i * lat_step)%Qc.

Definition in_band (lat_south lat_step : num) (i : Z) (p : point) : Prop :=
  (target_lat lat_south lat_step i - lat_step / two <= lat p)%Qc
  /\ (lat p <= target_lat lat_south lat_step i + lat_step / two)%Qc.


(** The step between two target latitudes for [n] waypoints. *)
Definition band_step (north_point south_point : point) (n : Z) : num :=
  ((lat north_point - lat south_point) / of_Z (n - 1))%Qc.

(** The rectangle that [--exclude-new-zealand] adds. *)
Definition new_zealand : region :=
  ((of_Z 165, of_Z 180), (of_Z (-55), of_Z (-25))).

Definition with_new_zealand : dict :=
  [(pt (-100) 40, of_Z 1); (pt 170 (-40), of_Z 1); (pt 10 50, of_Z 1)].

(** ** Comparisons on numbers *)

Section Comparisons.

Local Open Scope Qc_scope.

Lemma num_leb_iff (x y : num) : num_leb x y = true <-> x <= y.
Proof. unfold num_leb, Qcle. apply Qle_bool_iff. Qed.

Lemma num_leb_false_iff (x y : num) : num_leb x y = false <-> y < x.
Proof.
  split; intro H.
  - apply Qcnot_le_lt. intro Hle. apply num_leb_iff in Hle. congruence.
  - destruct (num_leb x y) eqn:E; [|reflexivity].
    apply num_leb_iff in E. exfalso. exact (Qclt_not_le _ _ H E).
Qed.

Lemma num_ltb_iff (x y : num) : num_ltb x y = true <-> x < y.
Proof.
  unfold num_ltb. rewrite negb_true_iff. apply num_leb_false_iff.
Qed.

Lemma num_ltb_false_iff (x y : num) : num_ltb x y = false <-> y <= x.
Proof.
  unfold num_ltb. rewrite negb_false_iff. apply num_leb_iff.
Qed.

Lemma num_eqb_iff (x y : num) : num_eqb x y = true <-> x = y.
Proof.
  unfold num_eqb. rewrite Qeq_bool_iff. split.
  - apply Qc_is_canon.
  - intros ->. reflexivity.
Qed.

Lemma num_eqb_refl (x : num) : num_eqb x x = true.
Proof. now apply num_eqb_iff. Qed.

Lemma point_eqb_iff (p r : point) : point_eqb p r = true <-> p = r.
Proof.
  unfold point_eqb, lon, lat. destruct p as [a b], r as [c d]. simpl.
  rewrite andb_true_iff, !num_eqb_iff. split.
  - intros [-> ->]. reflexivity.
  - intros [= -> ->]. split; reflexivity.
Qed.

Lemma point_eqb_refl (p : point) : point_eqb p p = true.
Proof. now apply point_eqb_iff. Qed.

Lemma point_neqb_false_iff (p r : point) : point_neqb p r = false <-> p = r.
Proof.
  unfold point_neqb. rewrite negb_false_iff. apply point_eqb_iff.
Qed.

Lemma of_Z_eq_iff (a b : Z) : of_Z a = of_Z b <-> a = b.
Proof.
  unfold of_Z. rewrite Q2Qc_eq_iff. split.
  - unfold Qeq. simpl. lia.
  - intros ->. reflexivity.
Qed.

(** The rational under each operation, up to [Qeq]. *)

Lemma this_of_Z (z : Z) : (this (of_Z z) == inject_Z z)%Q.
Proof. unfold of_Z, Q2Qc. cbn [this]. apply Qred_correct. Qed.

Lemma this_plus (a b : num) : (this (a + b) == this a + this b)%Q.
Proof. unfold Qcplus, Q2Qc. cbn [this]. apply Qred_correct. Qed.

Lemma this_minus (a b : num) : (this (a - b) == this a - this b)%Q.
Proof.
  unfold Qcminus, Qcplus, Qcopp, Q2Qc. cbn [this].
  rewrite !Qred_correct. reflexivity.
Qed.

Lemma this_mult (a b : num) : (this (a * b) == this a * this b)%Q.
Proof. unfold Qcmult, Q2Qc. cbn [this]. apply Qred_correct. Qed.

Lemma this_div (a b : num) : (this (a / b) == this a / this b)%Q.
Proof.
  unfold Qcdiv, Qcmult, Qcinv, Q2Qc. cbn [this].
  rewrite !Qred_correct. reflexivity.
Qed.

Lemma minus_leb_0 (a b : num) : num_leb (a - b) (of_Z 0) = num_leb a b.
Proof.
  apply eq_true_iff_eq. rewrite !num_leb_iff. unfold Qcle.
  rewrite this_minus, this_of_Z. change (inject_Z 0) with 0%Q.
  split; intro H; lra.
Qed.

End Comparisons.

(** ** Python lists *)

Section Lists.

Context {A : Type}.

Lemma len_nonneg (l : list A) : (0 <= len l)%Z.
Proof. unfold len. lia. Qed.

Lemma list_get_0_cons (x : A) (l : list A) : list_get (x :: l) 0 = Ok x.
Proof.
  unfold list_get, norm_index. cbn [length].
  replace ((0 <? 0)%Z) with false by reflexivity.
  destruct (Z.leb_spec (Z.of_nat (S (length l))) 0) as [H|H]; [lia|].
  reflexivity.
Qed.

Lemma list_get_last_snoc (l : list A) (x : A) :
  list_get (l ++ [x]) (-1) = Ok x.
Proof.
  unfold list_get, norm_index. rewrite length_app. cbn [length].
  replace ((-1 <? 0)%Z) with true by reflexivity.
  destruct (Z.ltb_spec (-1 + Z.of_nat (length l + 1)) 0) as [H|H]; [lia|].
  destruct (Z.leb_spec (Z.of_nat (length l + 1))
                       (-1 + Z.of_nat (length l + 1))) as [H'|H']; [lia|].
  cbn [orb].
  replace (Z.to_nat (-1 + Z.of_nat (length l + 1))) with (length l) by lia.
  rewrite nth_error_app2 by lia. rewrite Nat.sub_diag. reflexivity.
Qed.

Lemma list_get_nil (i : Z) : list_get (@nil A) i = Raise IndexError.
Proof.
  unfold list_get, norm_index. cbn [length].
  destruct (Z.ltb_spec i 0);
    [destruct (Z.ltb_spec (i + Z.of_nat 0) 0)|destruct (Z.ltb_spec i 0)];
    try lia; cbn [orb]; try reflexivity.
  destruct (Z.leb_spec (Z.of_nat 0) i); [reflexivity|lia].
Qed.

Lemma list_set_0_cons (x v : A) (l : list A) :
  list_set (x :: l) 0 v = Ok (v :: l).
Proof.
  unfold list_set, norm_index. cbn [length].
  replace ((0 <? 0)%Z) with false by reflexivity.
  destruct (Z.leb_spec (Z.of_nat (S (length l))) 0) as [H|H]; [lia|].
  reflexivity.
Qed.

Lemma replace_nth_snoc (l : list A) (x v : A) :
  replace_nth (l ++ [x]) (length l) v = l ++ [v].
Proof. induction l as [|y l IH]; cbn; [reflexivity|now rewrite IH]. Qed.

Lemma list_set_last_snoc (l : list A) (x v : A) :
  list_set (l ++ [x]) (-1) v = Ok (l ++ [v]).
Proof.
  unfold list_set, norm_index. rewrite length_app. cbn [length].
  replace ((-1 <? 0)%Z) with true by reflexivity.
  destruct (Z.ltb_spec (-1 + Z.of_nat (length l + 1)) 0) as [H|H]; [lia|].
  destruct (Z.leb_spec (Z.of_nat (length l + 1))
                       (-1 + Z.of_nat (length l + 1))) as [H'|H']; [lia|].
  cbn [orb].
  replace (Z.to_nat (-1 + Z.of_nat (length l + 1))) with (length l) by lia.
  now rewrite replace_nth_snoc.
Qed.

(** A list that is not empty ends in some item. *)
Lemma snoc_cases (l : list A) : l = [] \/ exists r x, l = r ++ [x].
Proof.
  destruct l as [|y l]; [now left|right].
  destruct (exists_last (l := y :: l)) as (r & x & E); [discriminate|].
  now exists r, x.
Qed.

End Lists.

(** ** The path builder *)

Section PathBuilder.

Variable density_map : dict.
Variables north_point south_point : point.

Lemma truthy_snoc (A : Type) (l : list A) (x : A) : truthy (l ++ [x]) = true.
Proof. destruct l; reflexivity. Qed.

(** Each turn of the band loop returns, and appends one waypoint. *)
Lemma waypoint_step_appends (lat_south lat_step : num) (path : list point)
  (i : Z) :
  exists p, waypoint_step density_map south_point lat_south lat_step path i
            = Ok (path ++ [p]).
Proof.
  unfold waypoint_step.
  match goal with |- context [filter ?f density_map] =>
    destruct (filter f density_map) as [|b bs] end.
  - cbn [truthy].
    destruct (snoc_cases path) as [->|(r & x & ->)].
    + cbn [truthy]. eexists. reflexivity.
    + rewrite truthy_snoc, list_get_last_snoc. cbn [bind].
      eexists. reflexivity.
  - cbn [truthy py_max bind]. eexists. reflexivity.
Qed.

Lemma for_each_waypoints (lat_south lat_step : num) (l : list Z) :
  forall path,
  exists path',
    for_each (waypoint_step density_map south_point lat_south lat_step) path l
    = Ok path'
    /\ length path' = (length path + length l)%nat.
Proof.
  induction l as [|i l IH]; intro path; cbn [for_each].
  - exists path. split; [reflexivity|cbn; lia].
  - destruct (waypoint_step_appends lat_south lat_step path i) as [p ->].
    cbn [bind]. destruct (IH (path ++ [p])) as (path' & -> & Hlen).
    exists path'. split; [reflexivity|].
    rewrite Hlen, length_app. cbn [length]. lia.
Qed.

Lemma length_range (n : Z) : length (range n) = Z.to_nat n.
Proof. unfold range. now rewrite length_map, length_seq. Qed.

(** Forcing the two ends of a path of at least two waypoints. *)
Lemma force_ends (x y : point) (mid : list point) :
  (first <- list_get (x :: mid ++ [y]) 0 ;;
   path <- (if point_neqb first south_point
            then list_set (x :: mid ++ [y]) 0 south_point
            else Ok (x :: mid ++ [y])) ;;
   last <- list_get path (-1) ;;
   path <- (if point_neqb last north_point
            then list_set path (-1) north_point else Ok path) ;;
   Ok path)
  = Ok (south_point :: mid ++ [north_point]).
Proof.
  rewrite list_get_0_cons. cbn [bind].
  assert (E1 : (if point_neqb x south_point
                then list_set (x :: mid ++ [y]) 0 south_point
                else Ok (x :: mid ++ [y]))
               = Ok (south_point :: mid ++ [y])).
  { destruct (point_neqb x south_point) eqn:E.
    - apply list_set_0_cons.
    - apply point_neqb_false_iff in E. now subst. }
  rewrite E1. cbn [bind].
  change (south_point :: mid ++ [y]) with ((south_point :: mid) ++ [y]).
  rewrite list_get_last_snoc. cbn [bind].
  destruct (point_neqb y north_point) eqn:E.
  - rewrite list_set_last_snoc. reflexivity.
  - apply point_neqb_false_iff in E. now subst.
Qed.

(** What the call does, case by case on the latitudes and on the count. *)
Lemma calculate_migration_path_cases (num_waypoints : Z) :
  (num_leb (lat north_point) (lat south_point) = true /\
   calculate_migration_path density_map north_point south_point num_waypoints
   = Ok [south_point; north_point])
  \/ (num_leb (lat north_point) (lat south_point) = false /\
      num_waypoints = 1%Z /\
      calculate_migration_path density_map north_point south_point
        num_waypoints = Raise ZeroDivisionError)
  \/ (num_leb (lat north_point) (lat south_point) = false /\
      (num_waypoints <= 0)%Z /\
      calculate_migration_path density_map north_point south_point
        num_waypoints = Raise IndexError)
  \/ (num_leb (lat north_point) (lat south_point) = false /\
      (2 <= num_waypoints)%Z /\
      exists mid,
        calculate_migration_path density_map north_point south_point
          num_waypoints = Ok (south_point :: mid ++ [north_point])
        /\ Z.of_nat (length mid) = (num_waypoints - 2)%Z).
Proof.
  unfold calculate_migration_path. rewrite minus_leb_0.
  destruct (num_leb (lat north_point) (lat south_point)) eqn:Hle.
  { left. split; reflexivity. }
  right. unfold py_div.
  destruct (num_eqb (of_Z (num_waypoints - 1)) (of_Z 0)) eqn:Hz.
  { left. apply num_eqb_iff, of_Z_eq_iff in Hz.
    split; [reflexivity|]. split; [lia|reflexivity]. }
  right. cbn [bind].
  assert (Hn1 : num_waypoints <> 1%Z).
  { intros ->. change (1 - 1)%Z with 0%Z in Hz.
    rewrite num_eqb_refl in Hz. discriminate. }
  match goal with |- context [for_each ?body [] ?l] =>
    destruct (for_each_waypoints (lat south_point)
                ((lat north_point - lat south_point)
                 / of_Z (num_waypoints - 1))%Qc l [])
      as (path & -> & Hlen) end.
  rewrite length_range in Hlen. cbn [length Nat.add] in Hlen. cbn [bind].
  destruct (Z.le_gt_cases num_waypoints 0) as [Hn|Hn].
  { left. split; [reflexivity|]. split; [exact Hn|].
    destruct path; [|cbn in Hlen; lia].
    rewrite list_get_nil. reflexivity. }
  right. split; [reflexivity|]. split; [lia|].
  destruct path as [|x r]; [cbn in Hlen; lia|].
  destruct (snoc_cases r) as [->|(mid & y & ->)]; [cbn in Hlen; lia|].
  exists mid. split.
  - apply force_ends.
  - cbn [length] in Hlen. rewrite length_app in Hlen. cbn [length] in Hlen.
    lia.
Qed.

End PathBuilder.

(** ** The stable sort and its two ends *)

Section Sorting.

Local Open Scope Qc_scope.

Context {A : Type}.
Variable key : A -> num.

Lemma first_min_lower_bound (l : list A) (x : A) :
  first_min key l x -> In x l /\ forall y, In y l -> key x <= key y.
Proof.
  intros (pre & post & -> & Hpre & Hpost). split.
  - apply in_elt.
  - intros y Hy. apply in_app_or in Hy. destruct Hy as [Hy|[<-|Hy]].
    + apply Qclt_le_weak. rewrite Forall_forall in Hpre. now apply Hpre.
    + apply Qcle_refl.
    + rewrite Forall_forall in Hpost. now apply Hpost.
Qed.

Lemma last_max_upper_bound (l : list A) (x : A) :
  last_max key l x -> In x l /\ forall y, In y l -> key y <= key x.
Proof.
  intros (pre & post & -> & Hpre & Hpost). split.
  - apply in_elt.
  - intros y Hy. apply in_app_or in Hy. destruct Hy as [Hy|[<-|Hy]].
    + rewrite Forall_forall in Hpre. now apply Hpre.
    + apply Qcle_refl.
    + apply Qclt_le_weak. rewrite Forall_forall in Hpost. now apply Hpost.
Qed.

Lemma insert_by_in (a x : A) (s : list A) :
  In x (insert_by key a s) -> x = a \/ In x s.
Proof.
  induction s as [|y s IH]; cbn [insert_by].
  - intros [<-|[]]. now left.
  - destruct (num_leb (key a) (key y)).
    + intros [<-|H]; [now left|now right].
    + intros [<-|H]; [right; now left|].
      destruct (IH H) as [->|H']; [now left|right; now right].
Qed.

Lemma sorted_in (x : A) (l : list A) : In x (sorted key l) -> In x l.
Proof.
  induction l as [|a l IH]; cbn [sorted]; [easy|].
  intro H. apply insert_by_in in H. destruct H as [->|H].
  - now left.
  - right. now apply IH.
Qed.

(** An item that is not below some later one does not become the last. *)
Lemma insert_by_keeps_last (a z : A) (t : list A) :
  key a <= key z ->
  exists t', insert_by key a (t ++ [z]) = t' ++ [z].
Proof.
  intro Hle. induction t as [|y t (t' & IH)]; cbn [insert_by app].
  - apply num_leb_iff in Hle. rewrite Hle. now exists [a].
  - destruct (num_leb (key a) (key y)).
    + now exists (a :: y :: t).
    + rewrite IH. now exists (y :: t').
Qed.

(** An item above all the others goes to the end. *)
Lemma insert_by_goes_last (a : A) (s : list A) :
  Forall (fun y => key y < key a) s -> insert_by key a s = s ++ [a].
Proof.
  induction 1 as [|y s Hy _ IH]; cbn [insert_by app]; [reflexivity|].
  apply num_leb_false_iff in Hy. now rewrite Hy, IH.
Qed.

Lemma sorted_head (l : list A) :
  l <> [] -> exists x rest, sorted key l = x :: rest /\ first_min key l x.
Proof.
  induction l as [|a l IH]; [easy|]. intros _. cbn [sorted].
  destruct l as [|b l].
  { exists a, []. split; [reflexivity|]. exists [], []. now repeat split. }
  destruct IH as (h & rest & Hs & Hfm); [discriminate|].
  rewrite Hs. cbn [insert_by].
  destruct (num_leb (key a) (key h)) eqn:E.
  - exists a, (h :: rest). split; [reflexivity|].
    exists [], (b :: l). split; [reflexivity|]. split; [constructor|].
    apply num_leb_iff in E. apply Forall_forall. intros y Hy.
    apply Qcle_trans with (key h); [exact E|].
    now apply (first_min_lower_bound Hfm).
  - exists h, (insert_by key a rest). split; [reflexivity|].
    destruct Hfm as (pre & post & Hl & Hpre & Hpost).
    exists (a :: pre), post. rewrite Hl. split; [reflexivity|].
    split; [|exact Hpost]. constructor; [|exact Hpre].
    now apply num_leb_false_iff.
Qed.

Lemma sorted_last (l : list A) :
  l <> [] -> exists init x, sorted key l = init ++ [x] /\ last_max key l x.
Proof.
  induction l as [|a l IH]; [easy|]. intros _. cbn [sorted].
  destruct l as [|b l].
  { exists [], a. split; [reflexivity|]. exists [], []. now repeat split. }
  destruct IH as (init & z & Hs & Hlm); [discriminate|].
  rewrite Hs.
  destruct (Qclt_le_dec (key z) (key a)) as [Hlt|Hle].
  - exists (init ++ [z]), a. split.
    + rewrite <- Hs. apply insert_by_goes_last. apply Forall_forall.
      intros y Hy. apply sorted_in in Hy.
      apply Qcle_lt_trans with (key z); [|exact Hlt].
      now apply (last_max_upper_bound Hlm).
    + exists [], (b :: l). split; [reflexivity|]. split; [constructor|].
      apply Forall_forall. intros y Hy.
      apply Qcle_lt_trans with (key z); [|exact Hlt].
      now apply (last_max_upper_bound Hlm).
  - destruct (insert_by_keeps_last init Hle) as (t' & ->).
    exists t', z. split; [reflexivity|].
    destruct Hlm as (pre & post & Hl & Hpre & Hpost).
    exists (a :: pre), post. rewrite Hl. split; [reflexivity|].
    split; [|exact Hpost]. constructor; [exact Hle|exact Hpre].
Qed.

End Sorting.

(** ** The extremes finder *)

(** The call returns on every cluster that has a cell: the south point is
    the first cell of least latitude, the north point the last cell of
    greatest latitude. *)
Lemma find_extremes_ends (density_map : dict) :
  density_map <> [] ->
  exists n s,
    find_extremes_in_cluster density_map = Ok (fst n, fst s)
    /\ first_min lat_key density_map s
    /\ last_max lat_key density_map n.
Proof.
  intro Hne. unfold find_extremes_in_cluster.
  destruct density_map as [|kv d] eqn:Ed; [easy|]. cbn [truthy negb].
  rewrite <- Ed in *. fold lat_key.
  assert (Hne' : density_map <> []) by (rewrite Ed; discriminate).
  destruct (sorted_head lat_key Hne') as (s & rest & Hs & Hfm).
  destruct (sorted_last lat_key Hne') as (init & n & Hl & Hlm).
  exists n, s. split; [|split; assumption].
  rewrite Hs at 1. rewrite list_get_0_cons. cbn [bind].
  rewrite Hl, list_get_last_snoc. reflexivity.
Qed.

(** ** Dictionaries *)

Section Dicts.

Lemma dict_set_in (d : dict) (k : point) (v : num) (kv : point * num) :
  In kv (dict_set d k v) -> kv = (k, v) \/ In kv d.
Proof.
  induction d as [|[k' v'] d IH]; cbn [dict_set].
  - intros [<-|[]]. now left.
  - destruct (point_eqb k' k) eqn:E.
    + apply point_eqb_iff in E. subst k'.
      intros [<-|H]; [now left|right; now right].
    + intros [<-|H]; [right; now left|].
      destruct (IH H) as [->|H']; [now left|right; now right].
Qed.

Lemma dict_set_fresh (d : dict) (k : point) (v : num) :
  ~ In k (keys d) -> dict_set d k v = d ++ [(k, v)].
Proof.
  induction d as [|[k' v'] d IH]; cbn [dict_set keys map fst app];
    [reflexivity|].
  intro Hn. destruct (point_eqb k' k) eqn:E.
  - apply point_eqb_iff in E. exfalso. apply Hn. now left.
  - rewrite IH; [reflexivity|]. intro H. apply Hn. now right.
Qed.

Lemma keys_app (d d' : dict) : keys (d ++ d') = keys d ++ keys d'.
Proof. apply map_app. Qed.

Lemma in_keys (d : dict) (k : point) :
  In k (keys d) <-> exists v, In (k, v) d.
Proof.
  unfold keys. rewrite in_map_iff. split.
  - intros ([k' v] & <- & H). now exists v.
  - intros (v & H). now exists (k, v).
Qed.

End Dicts.

(** ** The flyway clusterer *)

Section Clustering.

Local Open Scope Qc_scope.

Variable o : options.

Lemma cluster_step_keep (w e : dict) (kv : point * num) :
  cluster_step o (w, e) kv =
  (if west_keep o (fst kv) then dict_set w (fst kv) (snd kv) else w,
   if east_keep o (fst kv) then dict_set e (fst kv) (snd kv) else e).
Proof.
  destruct kv as [[x y] v]. unfold cluster_step, west_keep, east_keep.
  cbn [fst snd lon lat].
  destruct (num_ltb x (of_Z (-20))); cbn [negb andb].
  - now destruct (americas_south_limit o) as [l|]; [destruct (num_leb l y)|].
  - destruct (americas_only o); cbn [negb]; [reflexivity|].
    destruct (europe_only o).
    + match goal with |- context [if ?c then _ else _] => now destruct c end.
    + destruct (africa_only_south o); [|reflexivity].
      match goal with |- context [if ?c then _ else _] => now destruct c end.
Qed.

Lemma west_east_exclusive (p : point) :
  west_keep o p = true -> east_keep o p = true -> False.
Proof.
  unfold west_keep, east_keep.
  destruct (num_ltb (lon p) (of_Z (-20))); cbn [negb andb]; discriminate.
Qed.

(** Every item of the two dictionaries comes from the input, with its
    value, and passed the test of its side. *)
Lemma cluster_split_from (density_map : dict) :
  forall w e w' e',
    fold_left (cluster_step o) density_map (w, e) = (w', e') ->
    (forall kv, In kv w' ->
       In kv w \/ (In kv density_map /\ west_keep o (fst kv) = true))
    /\ (forall kv, In kv e' ->
          In kv e \/ (In kv density_map /\ east_keep o (fst kv) = true)).
Proof.
  induction density_map as [|kv0 d IH]; cbn [fold_left]; intros w e w' e' H.
  - injection H as <- <-. split; intros kv Hin; now left.
  - rewrite cluster_step_keep in H. apply IH in H. destruct H as [Hw He].
    split; intros kv Hin.
    + destruct (Hw kv Hin) as [H|[H1 H2]].
      * destruct (west_keep o (fst kv0)) eqn:E; [|now left].
        apply dict_set_in in H. destruct H as [->|H]; [|now left].
        right. split; [left; now destruct kv0|exact E].
      * right. split; [now right|exact H2].
    + destruct (He kv Hin) as [H|[H1 H2]].
      * destruct (east_keep o (fst kv0)) eqn:E; [|now left].
        apply dict_set_in in H. destruct H as [->|H]; [|now left].
        right. split; [left; now destruct kv0|exact E].
      * right. split; [now right|exact H2].
Qed.

(** On a dictionary, the loop selects: each side is the input's items that
    pass its test, in the input's order. *)
Lemma cluster_split_selects (density_map : dict) :
  forall w e,
    dict_wf density_map ->
    (forall k, In k (keys density_map) ->
               ~ In k (keys w) /\ ~ In k (keys e)) ->
    fold_left (cluster_step o) density_map (w, e) =
    (w ++ filter (fun kv => west_keep o (fst kv)) density_map,
     e ++ filter (fun kv => east_keep o (fst kv)) density_map).
Proof.
  unfold dict_wf.
  induction density_map as [|[k v] d IH]; cbn [fold_left filter];
    intros w e Hwf Hfresh.
  - now rewrite !app_nil_r.
  - cbn [keys map fst] in Hwf, Hfresh. inversion Hwf as [|? ? Hk Hd]. subst.
    destruct (Hfresh k (or_introl eq_refl)) as [Hkw Hke].
    rewrite cluster_step_keep. cbn [fst snd].
    rewrite IH; [| exact Hd |].
    + destruct (west_keep o k), (east_keep o k);
        rewrite ?dict_set_fresh by assumption;
        rewrite <- ?app_assoc; reflexivity.
    + intros k' Hk'. destruct (Hfresh k' (or_intror Hk')) as [H1 H2].
      assert (Hne : k' <> k) by (intros ->; contradiction).
      split; [destruct (west_keep o k)|destruct (east_keep o k)];
        try assumption;
        rewrite dict_set_fresh, keys_app by assumption;
        intro H; apply in_app_or in H; destruct H as [H|[H|[]]];
        try contradiction; cbn in H; congruence.
Qed.

End Clustering.

(** ** The normalizer *)

Section Normalizer.

Local Open Scope Qc_scope.

Lemma max_from_bounds (best : num) (l : list num) :
  In (max_from (fun v => v) best l) (best :: l)
  /\ forall x, In x (best :: l) -> x <= max_from (fun v => v) best l.
Proof.
  revert best. induction l as [|y l IH]; intro best; cbn [max_from].
  - split; [now left|]. intros x [<-|[]]. apply Qcle_refl.
  - destruct (IH (if num_ltb best y then y else best)) as [Hin Hub].
    split.
    + destruct Hin as [Hin|Hin]; [|right; now right].
      rewrite <- Hin. destruct (num_ltb best y); [right|]; now left.
    + intros x Hx.
      destruct (num_ltb best y) eqn:E.
      * apply num_ltb_iff in E. destruct Hx as [<-|[<-|Hx]].
        -- apply Qcle_trans with y; [now apply Qclt_le_weak|].
           apply Hub. now left.
        -- apply Hub. now left.
        -- apply Hub. now right.
      * apply num_ltb_false_iff in E. destruct Hx as [<-|[<-|Hx]].
        -- apply Hub. now left.
        -- apply Qcle_trans with best; [exact E|]. apply Hub. now left.
        -- apply Hub. now right.
Qed.

Lemma is_max_of_unique (density_map : dict) (m m' : num) :
  is_max_of density_map m -> is_max_of density_map m' -> m = m'.
Proof.
  intros [H1 H2] [H3 H4]. apply Qcle_antisym; auto.
Qed.

Lemma py_max_values (density_map : dict) :
  density_map <> [] ->
  exists m, py_max (fun v => v) (values density_map) = Ok m
            /\ is_max_of density_map m.
Proof.
  destruct density_map as [|kv d]; [easy|]. intros _.
  cbn [values map py_max]. eexists. split; [reflexivity|].
  apply max_from_bounds.
Qed.

Lemma mapM_total (A B : Type) (f : A -> result B) (g : A -> B) (l : list A) :
  (forall x, In x l -> f x = Ok (g x)) -> mapM f l = Ok (map g l).
Proof.
  induction l as [|x l IH]; intro H; cbn [mapM map]; [reflexivity|].
  rewrite H by now left. cbn [bind].
  rewrite IH by (intros; apply H; now right). reflexivity.
Qed.

(** The quotient by a positive greatest value lies between 0 and 1. *)
Lemma quotient_in_unit (v m : num) :
  of_Z 0 <= v -> v <= m -> m <> of_Z 0 ->
  of_Z 0 <= v / m /\ v / m <= of_Z 1.
Proof.
  intros H0 Hm Hne.
  assert (Hpos : of_Z 0 < m).
  { destruct (Qcle_lt_or_eq _ _ (Qcle_trans _ _ _ H0 Hm)) as [H|H];
      [exact H|congruence]. }
  unfold Qcle, Qclt in *. rewrite this_div.
  rewrite this_of_Z in *. change (inject_Z 0) with 0%Q in *.
  rewrite this_of_Z. change (inject_Z 1) with 1%Q.
  split.
  - apply Qle_shift_div_l; [exact Hpos|]. lra.
  - apply Qle_shift_div_r; [exact Hpos|]. lra.
Qed.

Lemma quotient_self (m : num) : m <> of_Z 0 -> m / m = of_Z 1.
Proof.
  intro H. unfold Qcdiv. rewrite Qcmult_inv_r by exact H.
  apply Qc_is_canon. reflexivity.
Qed.

(** The map returned on a map whose greatest value is not zero. *)
Lemma normalize_densities_scaled (density_map : dict) (m : num) :
  is_max_of density_map m -> m <> of_Z 0 ->
  normalize_densities density_map
  = Ok (map (fun kv => (fst kv, snd kv / m)) density_map).
Proof.
  intros Hmax Hne. unfold normalize_densities.
  destruct density_map as [|kv d] eqn:Ed; [destruct Hmax as [[] _]|].
  rewrite <- Ed in *. replace (truthy density_map) with true by now rewrite Ed.
  cbn [negb].
  destruct (py_max_values (density_map := density_map)) as (m' & -> & Hm');
    [rewrite Ed; discriminate|].
  rewrite (is_max_of_unique Hm' Hmax). cbn [bind].
  destruct (num_eqb m (of_Z 0)) eqn:E; [now apply num_eqb_iff in E|].
  apply mapM_total. intros x _. unfold py_div. rewrite E. reflexivity.
Qed.

(** The map returned on a map whose greatest value is zero. *)
Lemma normalize_densities_zero (density_map : dict) :
  is_max_of density_map (of_Z 0) ->
  normalize_densities density_map
  = Ok (map (fun kv => (fst kv, of_Z 0)) density_map).
Proof.
  intros Hmax. unfold normalize_densities.
  destruct density_map as [|kv d] eqn:Ed; [destruct Hmax as [[] _]|].
  rewrite <- Ed in *. replace (truthy density_map) with true by now rewrite Ed.
  cbn [negb].
  destruct (py_max_values (density_map := density_map)) as (m' & -> & Hm');
    [rewrite Ed; discriminate|].
  rewrite (is_max_of_unique Hm' Hmax). cbn [bind].
  rewrite num_eqb_refl. reflexivity.
Qed.

End Normalizer.

(** * Properties of the pipeline *)

(** ** Path builder *)


(** On [rival] the search of the lowest band does not choose the south
    anchor [(0, 0)] but the denser cell [(5, 1/5)]. *)
Lemma lowest_band_prefers_rival :
  waypoint_step rival (pt 0 0) (of_Z 0) (of_Z 1) [] 0
  = Ok [(of_Z 5, Q2Qc (1 # 5))].
Proof. reflexivity. Qed.


(** C5, as the code has it.  With [num_waypoints = 1] the call returns the
    two-point list [[south, north]] when the north anchor is not above the
    south anchor, and otherwise raises [ZeroDivisionError] from
    [lat_range / (num_waypoints - 1)] before any waypoint is built. *)
Theorem single_waypoint_call (density_map : dict)
  (north_point south_point : point) :
  calculate_migration_path density_map north_point south_point 1
  = if num_leb (lat north_point) (lat south_point)
    then Ok [south_point; north_point]
    else Raise ZeroDivisionError.
Proof.
  destruct (calculate_migration_path_cases density_map north_point
              south_point 1)
    as [(Hle & E)|[(Hle & _ & E)|[(Hle & Hn & _)|(Hle & Hn & _)]]];
    try lia; rewrite E, Hle; reflexivity.
Qed.

(** C5 fails as stated: over a non-empty cluster whose anchors differ in
    latitude, the call with one waypoint returns no list at all. *)
Lemma single_waypoint_call_raises :
  far_apart <> []
  /\ lat (pt 0 0) <> lat (pt 10 24)
  /\ calculate_migration_path far_apart (pt 10 24) (pt 0 0) 1
     = Raise ZeroDivisionError
  /\ ~ (exists path,
          calculate_migration_path far_apart (pt 10 24) (pt 0 0) 1 = Ok path).
Proof.
  assert (E : calculate_migration_path far_apart (pt 10 24) (pt 0 0) 1
              = Raise ZeroDivisionError) by (vm_compute; reflexivity).
  split; [discriminate|]. split.
  - unfold pt, lat. cbn [snd]. rewrite of_Z_eq_iff. discriminate.
  - split; [exact E|]. intros [path H]. rewrite E in H. discriminate H.
Qed.

(** ** Path smoother *)

(** C8. A path no longer than the window is returned as it is. *)
Theorem smooth_path_short_identity (path : list point) (window_size : Z) :
  (len path <= window_size)%Z -> smooth_path path window_size = Ok path.
Proof.
  intro H. unfold smooth_path. apply Z.leb_le in H. now rewrite H.
Qed.

Lemma smooth_path_short_identity_witness :
  (len three_points <= 5)%Z /\ smooth_path three_points 5 = Ok three_points.
Proof.
  assert (H : (len three_points <= 5)%Z) by (unfold len; cbn; lia).
  split; [exact H|]. exact (smooth_path_short_identity three_points H).
Defined.

(** ** Orchestration *)

(** C6, as the code has it.  When the aggregated density map has no cell,
    [build_migration_json] writes no output file and returns to its caller
    without raising. *)
Theorem no_cells_no_output (frames : list frame) (species_name : string)
  (exclude_regions : list region) (o : options) :
  aggregate_density_over_time frames = [] ->
  build_migration_json frames species_name exclude_regions o = Ok None.
Proof.
  intro H. unfold build_migration_json. rewrite H. reflexivity.
Qed.

Lemma no_cells_no_output_witness :
  aggregate_density_over_time no_cell_frames = []
  /\ build_migration_json no_cell_frames "Unknown Species"%string [] default_options
     = Ok None.
Proof.
  assert (H : aggregate_density_over_time no_cell_frames = [])
    by reflexivity.
  split; [exact H|].
  exact (no_cells_no_output no_cell_frames "Unknown Species"%string []
           default_options H).
Defined.

(** C6 fails as stated: on a heatmap whose only frame has no cell, no
    exception leaves the call. *)
Lemma no_cells_not_fatal :
  aggregate_density_over_time no_cell_frames = []
  /\ ~ (exists e,
          build_migration_json no_cell_frames "Unknown Species"%string []
            default_options = Raise e).
Proof.
  split; [reflexivity|]. intros [e H]. discriminate H.
Qed.

(** ** Extremes finder *)

(** C4. On a cluster with at least one cell the call returns a north point
    and a south point that are cells of the cluster, the latitude of the one
    being the greatest and the latitude of the other the least over the
    cluster's cells; on the empty cluster it raises [ValueError]. *)
Theorem find_extremes_true_min_max (density_map : dict) :
  density_map <> [] ->
  (exists north_point south_point,
     find_extremes_in_cluster density_map = Ok (north_point, south_point)
     /\ In north_point (keys density_map)
     /\ In south_point (keys density_map)
     /\ forall k, In k (keys density_map) ->
                  (lat south_point <= lat k)%Qc
                  /\ (lat k <= lat north_point)%Qc)
  /\ find_extremes_in_cluster [] = Raise ValueError.
Proof.
  intro Hne. split; [|reflexivity].
  destruct (find_extremes_ends Hne) as (n & s & E & Hs & Hn).
  apply first_min_lower_bound in Hs. apply last_max_upper_bound in Hn.
  destruct Hs as [Hs1 Hs2], Hn as [Hn1 Hn2].
  exists (fst n), (fst s). split; [exact E|].
  split; [now apply in_map|]. split; [now apply in_map|].
  intros k Hk. apply in_map_iff in Hk. destruct Hk as (kv & <- & Hkv).
  split; [exact (Hs2 kv Hkv)|exact (Hn2 kv Hkv)].
Qed.

Lemma find_extremes_true_min_max_witness :
  three_lats <> []
  /\ (exists north_point south_point,
        find_extremes_in_cluster three_lats = Ok (north_point, south_point)
        /\ In north_point (keys three_lats)
        /\ In south_point (keys three_lats)
        /\ forall k, In k (keys three_lats) ->
                     (lat south_point <= lat k)%Qc
                     /\ (lat k <= lat north_point)%Qc)
  /\ find_extremes_in_cluster [] = Raise ValueError.
Proof.
  assert (H : three_lats <> []) by discriminate.
  split; [exact H|]. exact (find_extremes_true_min_max H).
Defined.

(** C7, as the code has it.  Among the cells that tie for the least
    latitude the south point is the first in the cluster's iteration order;
    among the cells that tie for the greatest latitude the north point is
    the last in that order, since the north point is the last item of a
    stable ascending sort. *)
Theorem find_extremes_tie_break (density_map : dict)
  (north_point south_point : point) :
  find_extremes_in_cluster density_map = Ok (north_point, south_point) ->
  (exists v, first_min lat_key density_map (south_point, v))
  /\ (exists v, last_max lat_key density_map (north_point, v)).
Proof.
  intro H.
  assert (Hne : density_map <> []).
  { intros ->. discriminate H. }
  destruct (find_extremes_ends Hne) as ([n vn] & [s vs] & E & Hs & Hn).
  rewrite E in H. cbn [fst] in H. injection H as <- <-.
  split; [now exists vs|now exists vn].
Qed.

Lemma find_extremes_tie_break_witness :
  find_extremes_in_cluster tied = Ok (pt 1 5, pt 0 5)
  /\ (exists v, first_min lat_key tied (pt 0 5, v))
  /\ (exists v, last_max lat_key tied (pt 1 5, v)).
Proof.
  assert (H : find_extremes_in_cluster tied = Ok (pt 1 5, pt 0 5))
    by reflexivity.
  split; [exact H|]. exact (find_extremes_tie_break tied H).
Defined.

(** C7 fails as stated for the north point: of two cells on the greatest
    latitude, the first in iteration order is [(0, 5)], and the call returns
    the other one. *)
Lemma find_extremes_north_not_first :
  find_extremes_in_cluster tied = Ok (pt 1 5, pt 0 5)
  /\ first_max lat_key tied (pt 0 5, of_Z 1)
  /\ ~ (exists v, first_max lat_key tied (pt 1 5, v)).
Proof.
  split; [reflexivity|]. split.
  - exists [], [(pt 1 5, of_Z 1)]. split; [reflexivity|].
    split; [constructor|]. constructor; [|constructor].
    apply Qcle_refl.
  - intros (v & pre & post & E & Hpre & _). unfold tied in E.
    destruct pre as [|x pre].
    + cbn [app] in E. apply (f_equal (fun l => map fst (firstn 1 l))) in E.
      cbn in E. injection E as E. apply of_Z_eq_iff in E. discriminate E.
    + cbn [app] in E. injection E as <- E.
      inversion Hpre as [|? ? Hlt _]. subst.
      exact (Qclt_not_le _ _ Hlt (Qcle_refl _)).
Qed.

(** ** Flyway clusterer *)

Lemma west_keep_iff (o : options) (p : point) :
  west_keep o p = true <-> spec_western o p.
Proof.
  unfold west_keep, spec_western.
  rewrite andb_true_iff, num_ltb_iff.
  destruct (americas_south_limit o) as [limit|].
  - now rewrite num_leb_iff.
  - intuition.
Qed.

Lemma east_keep_iff (o : options) (p : point) :
  east_keep o p = true <-> spec_eastern o p.
Proof.
  unfold east_keep, spec_eastern.
  rewrite !andb_true_iff, negb_true_iff, num_ltb_false_iff, negb_true_iff.
  destruct (europe_only o); [|destruct (africa_only_south o)];
    rewrite ?andb_true_iff, ?num_leb_iff; intuition.
Qed.

Lemma cluster_by_longitude_split (density_map : dict) (o : options) :
  cluster_by_longitude density_map o
  = omit_empty (fst (cluster_split density_map o))
               (snd (cluster_split density_map o)).
Proof.
  unfold cluster_by_longitude, omit_empty.
  destruct density_map as [|kv d]; [reflexivity|]. cbn [truthy negb].
  destruct (cluster_split (kv :: d) o) as [w e]. cbn [fst snd].
  destruct (truthy w), (truthy e); reflexivity.
Qed.

(** C3. On a density map, a cell goes to the western cluster exactly when
    its longitude is below -20 and it is not south of the Americas limit,
    if there is one; it goes to the eastern cluster exactly when its
    longitude is at least -20, [americas_only] is off, and it lies in the
    Europe box under [europe_only], else in the Africa band under
    [africa_only_south].  The list returned holds the western cluster and
    then the eastern one, each only if it has a cell.  Clustering
    [{(-30,10): 1, (30,10): 1}] with the default options gives
    [[{(-30,10): 1}, {(30,10): 1}]]. *)
Theorem cluster_by_longitude_membership (density_map : dict) (o : options) :
  dict_wf density_map ->
  (exists western eastern,
     cluster_split density_map o = (western, eastern)
     /\ (forall kv, In kv western <->
                    In kv density_map /\ spec_western o (fst kv))
     /\ (forall kv, In kv eastern <->
                    In kv density_map /\ spec_eastern o (fst kv))
     /\ cluster_by_longitude density_map o = omit_empty western eastern)
  /\ cluster_by_longitude two_sides default_options
     = [[(pt (-30) 10, of_Z 1)]; [(pt 30 10, of_Z 1)]].
Proof.
  intro Hwf. split; [|reflexivity].
  exists (filter (fun kv => west_keep o (fst kv)) density_map),
         (filter (fun kv => east_keep o (fst kv)) density_map).
  assert (E : cluster_split density_map o
              = (filter (fun kv => west_keep o (fst kv)) density_map,
                 filter (fun kv => east_keep o (fst kv)) density_map)).
  { unfold cluster_split. rewrite cluster_split_selects; [reflexivity|assumption|].
    intros k _. split; intros []. }
  split; [exact E|].
  split; [|split].
  - intro kv. rewrite filter_In, west_keep_iff. reflexivity.
  - intro kv. rewrite filter_In, east_keep_iff. reflexivity.
  - rewrite cluster_by_longitude_split, E. reflexivity.
Qed.

Lemma cluster_by_longitude_membership_witness :
  dict_wf two_sides
  /\ (exists western eastern,
        cluster_split two_sides default_options = (western, eastern)
        /\ (forall kv, In kv western <->
                       In kv two_sides /\ spec_western default_options (fst kv))
        /\ (forall kv, In kv eastern <->
                       In kv two_sides /\ spec_eastern default_options (fst kv))
        /\ cluster_by_longitude two_sides default_options
           = omit_empty western eastern)
  /\ cluster_by_longitude two_sides default_options
     = [[(pt (-30) 10, of_Z 1)]; [(pt 30 10, of_Z 1)]].
Proof.
  assert (H : dict_wf two_sides).
  { unfold dict_wf, two_sides. cbn [keys map fst].
    constructor; [|constructor; [intros []|constructor]].
    intros [E|[]]. unfold pt in E. injection E as E.
    apply of_Z_eq_iff in E. discriminate E. }
  split; [exact H|].
  exact (cluster_by_longitude_membership default_options H).
Defined.

(** C10. The clusters returned are restrictions of the input that share no
    key: every item of a returned cluster is an item of the input, with the
    input's value; two clusters at different places of the result have no
    key in common; the keys of the western side all have a longitude below
    -20 and the keys of the eastern side a longitude of at least -20. *)
Theorem clusters_disjoint_restrictions (density_map : dict) (o : options) :
  (forall c kv, In c (cluster_by_longitude density_map o) ->
                In kv c -> In kv density_map)
  /\ (forall i j c1 c2 k,
        nth_error (cluster_by_longitude density_map o) i = Some c1 ->
        nth_error (cluster_by_longitude density_map o) j = Some c2 ->
        i <> j -> In k (keys c1) -> ~ In k (keys c2))
  /\ (forall k, In k (keys (fst (cluster_split density_map o))) ->
                (lon k < of_Z (-20))%Qc)
  /\ (forall k, In k (keys (snd (cluster_split density_map o))) ->
                (of_Z (-20) <= lon k)%Qc).
Proof.
  rewrite cluster_by_longitude_split.
  destruct (cluster_split density_map o) as [w e] eqn:E. cbn [fst snd].
  destruct (cluster_split_from o density_map [] [] E) as [Hw He].
  assert (Hwk : forall k, In k (keys w) ->
                          exists v, In (k, v) density_map
                                    /\ west_keep o k = true).
  { intros k Hk. apply in_keys in Hk. destruct Hk as [v Hv].
    destruct (Hw _ Hv) as [[]|[H1 H2]]. now exists v. }
  assert (Hek : forall k, In k (keys e) ->
                          exists v, In (k, v) density_map
                                    /\ east_keep o k = true).
  { intros k Hk. apply in_keys in Hk. destruct Hk as [v Hv].
    destruct (He _ Hv) as [[]|[H1 H2]]. now exists v. }
  assert (Hdisj : forall k, In k (keys w) -> In k (keys e) -> False).
  { intros k H1 H2. destruct (Hwk k H1) as (_ & _ & K1).
    destruct (Hek k H2) as (_ & _ & K2).
    exact (west_east_exclusive o k K1 K2). }
  split; [|split; [|split]].
  - intros c kv Hc Hkv. unfold omit_empty in Hc.
    destruct (truthy w), (truthy e); cbn in Hc;
      repeat (destruct Hc as [<-|Hc]);
      try contradiction;
      first [destruct (Hw _ Hkv) as [[]|[H _]]; exact H
            |destruct (He _ Hkv) as [[]|[H _]]; exact H].
  - intros i j c1 c2 k H1 H2 Hij Hk1 Hk2. unfold omit_empty in H1, H2.
    destruct (truthy w), (truthy e); cbn [app] in H1, H2;
      destruct i as [|[|i]], j as [|[|j]]; cbn in H1, H2;
      try discriminate; try congruence;
      try (destruct i; discriminate); try (destruct j; discriminate);
      injection H1 as <-; injection H2 as <-; eauto.
  - intros k Hk. destruct (Hwk k Hk) as (_ & _ & K).
    apply west_keep_iff in K. exact (proj1 K).
  - intros k Hk. destruct (Hek k Hk) as (_ & _ & K).
    apply east_keep_iff in K. exact (proj1 K).
Qed.

(** ** Normalizer *)

Lemma Forall2_map_right (A B : Type) (R : A -> B -> Prop) (f : A -> B)
  (l : list A) :
  (forall x, In x l -> R x (f x)) -> Forall2 R l (map f l).
Proof.
  induction l as [|x l IH]; intro H; cbn [map]; constructor.
  - apply H. now left.
  - apply IH. intros y Hy. apply H. now right.
Qed.

(** C2, as the code has it.  On a density map whose values are all at
    least zero, the call returns a map with the same keys in which every
    value lies between 0 and 1, and when some input value is not zero a
    cell that holds the greatest input value is sent to exactly 1.  On
    every map: the empty map is sent to the empty map, and a map whose
    greatest value is zero is sent, without a division, to the map that
    sends every key to zero. *)
Theorem normalize_densities_range (density_map : dict) :
  nonneg density_map ->
  (exists out,
     normalize_densities density_map = Ok out
     /\ Forall2
          (fun kv kv' =>
             fst kv' = fst kv
             /\ ((of_Z 0 <= snd kv')%Qc /\ (snd kv' <= of_Z 1)%Qc)
             /\ ((exists v, In v (values density_map) /\ v <> of_Z 0) ->
                 is_max_of density_map (snd kv) -> snd kv' = of_Z 1))
          density_map out)
  /\ normalize_densities [] = Ok []
  /\ (forall d, is_max_of d (of_Z 0) ->
                normalize_densities d
                = Ok (map (fun kv => (fst kv, of_Z 0)) d)).
Proof.
  intro Hpos. split; [|split; [reflexivity|exact normalize_densities_zero]].
  unfold nonneg in Hpos. rewrite Forall_forall in Hpos.
  destruct density_map as [|kv0 d0] eqn:Ed.
  { exists []. split; [reflexivity|constructor]. }
  rewrite <- Ed in *.
  destruct (py_max_values (density_map := density_map)) as (m & _ & Hm);
    [rewrite Ed; discriminate|].
  destruct (Qc_eq_dec m (of_Z 0)) as [Hz|Hnz].
  - subst m. eexists. split; [apply (normalize_densities_zero Hm)|].
    apply Forall2_map_right. intros kv Hkv. cbn [fst snd].
    split; [reflexivity|]. split.
    + split; [apply Qcle_refl|]. apply num_leb_iff. reflexivity.
    + intros (v & Hv & Hne) _. exfalso. apply Hne.
      apply Qcle_antisym; [exact (proj2 Hm v Hv)|exact (Hpos v Hv)].
  - eexists. split; [apply (normalize_densities_scaled Hm Hnz)|].
    apply Forall2_map_right. intros kv Hkv. cbn [fst snd].
    assert (Hv : In (snd kv) (values density_map)) by now apply in_map.
    split; [reflexivity|]. split.
    + apply quotient_in_unit;
        [exact (Hpos _ Hv)|exact (proj2 Hm _ Hv)|exact Hnz].
    + intros _ Hmax.
      replace (snd kv) with m by exact (is_max_of_unique Hm Hmax).
      now apply quotient_self.
Qed.

Lemma normalize_densities_range_witness :
  nonneg densities
  /\ (exists out,
        normalize_densities densities = Ok out
        /\ Forall2
             (fun kv kv' =>
                fst kv' = fst kv
                /\ ((of_Z 0 <= snd kv')%Qc /\ (snd kv' <= of_Z 1)%Qc)
                /\ ((exists v, In v (values densities) /\ v <> of_Z 0) ->
                    is_max_of densities (snd kv) -> snd kv' = of_Z 1))
             densities out)
  /\ normalize_densities [] = Ok []
  /\ (forall d, is_max_of d (of_Z 0) ->
                normalize_densities d
                = Ok (map (fun kv => (fst kv, of_Z 0)) d)).
Proof.
  assert (H : nonneg densities).
  { unfold nonneg, densities. cbn [values map snd].
    repeat constructor; apply num_leb_iff; reflexivity. }
  split; [exact H|]. exact (normalize_densities_range H).
Defined.

(** C2 fails as stated on maps that hold a negative value.  On
    [{(0,0): -1, (1,0): 2}] the value returned for [(0,0)] is [-1/2], below
    0.  On [{(0,0): -1, (1,0): 0}] an input value is not zero, the greatest
    value is 0, and the cell that holds it is sent to 0, not to 1. *)
Lemma normalize_densities_negative_values :
  (exists out v,
     normalize_densities mixed_signs = Ok out
     /\ In (pt 0 0, v) out /\ (v < of_Z 0)%Qc)
  /\ (exists out,
        normalize_densities below_zero = Ok out
        /\ (exists v, In v (values below_zero) /\ v <> of_Z 0)
        /\ is_max_of below_zero (of_Z 0)
        /\ In (pt 1 0, of_Z 0) below_zero
        /\ In (pt 1 0, of_Z 0) out
        /\ of_Z 0 <> of_Z 1).
Proof.
  split.
  - assert (Hm : is_max_of mixed_signs (of_Z 2)).
    { split; [right; now left|].
      intros v [<-|[<-|[]]]; apply num_leb_iff; reflexivity. }
    assert (Hnz : of_Z 2 <> of_Z 0).
    { intro K. apply of_Z_eq_iff in K. discriminate K. }
    eexists. exists (of_Z (-1) / of_Z 2)%Qc.
    split; [exact (normalize_densities_scaled Hm Hnz)|].
    split; [now left|]. apply num_ltb_iff. reflexivity.
  - assert (Hm : is_max_of below_zero (of_Z 0)).
    { split; [right; now left|].
      intros v [<-|[<-|[]]]; apply num_leb_iff; reflexivity. }
    eexists. split; [exact (normalize_densities_zero Hm)|].
    split.
    { exists (of_Z (-1)). split; [now left|].
      intro K. apply of_Z_eq_iff in K. discriminate K. }
    split; [exact Hm|]. split; [right; now left|].
    split; [right; now left|].
    intro K. apply of_Z_eq_iff in K. discriminate K.
Qed.

(** ** Smoothing after the anchors are forced *)


(** * Further properties *)

(** ** Dictionary updates *)

(** Ring equations between numbers. *)
Ltac num_ring :=
  apply Qc_is_canon;
  rewrite ?this_plus, ?this_minus, ?this_mult, ?this_plus, ?this_minus,
    ?this_mult, ?this_of_Z;
  ring.

Section DictUpdates.

Local Open Scope Qc_scope.

Lemma point_eq_dec (p r : point) : {p = r} + {p <> r}.
Proof.
  destruct (point_eqb p r) eqn:E.
  - left. now apply point_eqb_iff.
  - right. intro H. apply point_eqb_iff in H. congruence.
Qed.

Lemma point_eqb_false_iff (p r : point) : point_eqb p r = false <-> p <> r.
Proof.
  split.
  - intros E H. apply point_eqb_iff in H. congruence.
  - intro H. destruct (point_eqb p r) eqn:E; [|reflexivity].
    apply point_eqb_iff in E. contradiction.
Qed.

Lemma dict_set_keys (d : dict) (k : point) (v : num) (k' : point) :
  In k' (keys (dict_set d k v)) <-> k' = k \/ In k' (keys d).
Proof.
  induction d as [|[k0 v0] d IH]; cbn [dict_set keys map fst In].
  - intuition.
  - destruct (point_eqb k0 k) eqn:E; cbn [keys map fst In].
    + apply point_eqb_iff in E. subst. intuition.
    + fold (keys (dict_set d k v)). rewrite IH. fold (keys d). intuition.
Qed.

Lemma dict_set_wf (d : dict) (k : point) (v : num) :
  dict_wf d -> dict_wf (dict_set d k v).
Proof.
  unfold dict_wf.
  induction d as [|[k0 v0] d IH]; cbn [dict_set keys map fst]; intro H.
  - constructor; [intros []|constructor].
  - inversion H as [|? ? Hk Hd]. subst.
    destruct (point_eqb k0 k) eqn:E; cbn [keys map fst].
    + exact H.
    + constructor; [|now apply IH].
      fold (keys (dict_set d k v)). rewrite dict_set_keys.
      intros [->|Hin]; [|contradiction].
      rewrite point_eqb_refl in E. discriminate.
Qed.

Lemma dict_get_set_same (d : dict) (k : point) (v default : num) :
  dict_get (dict_set d k v) k default = v.
Proof.
  induction d as [|[k0 v0] d IH]; cbn [dict_set dict_get].
  - now rewrite point_eqb_refl.
  - destruct (point_eqb k0 k) eqn:E; cbn [dict_get]; now rewrite E.
Qed.

Lemma dict_get_set_other (d : dict) (k k' : point) (v default : num) :
  k' <> k ->
  dict_get (dict_set d k v) k' default = dict_get d k' default.
Proof.
  intro Hne. induction d as [|[k0 v0] d IH]; cbn [dict_set dict_get].
  - replace (point_eqb k k') with false; [reflexivity|].
    symmetry. apply point_eqb_false_iff. congruence.
  - destruct (point_eqb k0 k) eqn:E; cbn [dict_get].
    + apply point_eqb_iff in E. subst k0.
      replace (point_eqb k k') with false; [reflexivity|].
      symmetry. apply point_eqb_false_iff. congruence.
    + now rewrite IH.
Qed.

Lemma dict_set_not_empty (d : dict) (k : point) (v : num) :
  dict_set d k v <> [].
Proof.
  destruct d as [|[k0 v0] d]; cbn [dict_set]; [discriminate|].
  destruct (point_eqb k0 k); discriminate.
Qed.

Lemma py_sum_from (l : list num) (a : num) :
  fold_left Qcplus l a = a + py_sum l.
Proof.
  unfold py_sum, num in *. change (of_Z 0) with 0.
  revert a. induction l as [|x l IH]; intro a; cbn [fold_left].
  - ring.
  - rewrite IH, (IH (0 + x)). ring.
Qed.

Lemma py_sum_cons (x : num) (l : list num) : py_sum (x :: l) = x + py_sum l.
Proof.
  unfold py_sum at 1. cbn [fold_left]. rewrite py_sum_from.
  unfold num in *. change (of_Z 0) with 0. ring.
Qed.

End DictUpdates.

(** ** Density aggregator *)

Section Aggregator.

Local Open Scope Qc_scope.

Lemma aggregate_cell_sets (d : dict) (c : cell) :
  aggregate_cell d c
  = dict_set d (cell_point c)
             (dict_get d (cell_point c) (of_Z 0) + cell_density c).
Proof. destruct c as [[x y] v]. reflexivity. Qed.

Lemma aggregate_frames_flat (frames : list frame) (d : dict) :
  fold_left (fun density_map fr =>
               fold_left aggregate_cell (cells fr) density_map) frames d
  = fold_left aggregate_cell (all_cells frames) d.
Proof.
  unfold all_cells. revert d.
  induction frames as [|fr frames IH]; intro d; cbn [fold_left flat_map];
    [reflexivity|].
  now rewrite fold_left_app, IH.
Qed.

Lemma aggregate_cells_wf (cs : list cell) (d : dict) :
  dict_wf d -> dict_wf (fold_left aggregate_cell cs d).
Proof.
  revert d. induction cs as [|c cs IH]; intros d H; cbn [fold_left];
    [exact H|].
  apply IH. rewrite aggregate_cell_sets. now apply dict_set_wf.
Qed.

Lemma aggregate_cells_keys (cs : list cell) (d : dict) (k : point) :
  In k (keys (fold_left aggregate_cell cs d))
  <-> In k (keys d) \/ In k (map cell_point cs).
Proof.
  revert d. induction cs as [|c cs IH]; intro d; cbn [fold_left map In].
  - intuition.
  - rewrite IH, aggregate_cell_sets, dict_set_keys. intuition.
Qed.

Lemma aggregate_cells_get (cs : list cell) (d : dict) (k : point) :
  dict_get (fold_left aggregate_cell cs d) k (of_Z 0)
  = dict_get d k (of_Z 0)
    + py_sum (map cell_density
                  (filter (fun c => point_eqb (cell_point c) k) cs)).
Proof.
  revert d. induction cs as [|c cs IH]; intro d; cbn [fold_left filter map].
  - unfold py_sum. cbn [fold_left]. num_ring.
  - rewrite IH, aggregate_cell_sets.
    destruct (point_eqb (cell_point c) k) eqn:E.
    + apply point_eqb_iff in E. subst k.
      rewrite dict_get_set_same. cbn [map]. rewrite py_sum_cons.
      num_ring.
    + apply point_eqb_false_iff in E.
      rewrite dict_get_set_other by congruence. reflexivity.
Qed.

End Aggregator.

(** X1. The aggregated map is a dictionary: no coordinate pair is a key
    twice, however often the frames repeat it. *)
Theorem aggregate_keys_unique (frames : list frame) :
  dict_wf (aggregate_density_over_time frames).
Proof.
  unfold aggregate_density_over_time. rewrite aggregate_frames_flat.
  apply aggregate_cells_wf. constructor.
Qed.

(** X2. The value the aggregated map holds for a coordinate pair, read with
    [.get(k, 0)], is the sum of the densities of all the cells of all the
    frames at exactly that pair. *)
Theorem aggregate_sums_densities (frames : list frame) (k : point) :
  dict_get (aggregate_density_over_time frames) k (of_Z 0)
  = py_sum (map cell_density
                (filter (fun c => point_eqb (cell_point c) k)
                        (all_cells frames))).
Proof.
  unfold aggregate_density_over_time.
  rewrite aggregate_frames_flat, aggregate_cells_get.
  cbn [dict_get]. num_ring.
Qed.

(** X3. The keys of the aggregated map are the coordinate pairs of the
    cells of the frames, and no others. *)
Theorem aggregate_keys_are_cells (frames : list frame) (k : point) :
  In k (keys (aggregate_density_over_time frames))
  <-> In k (map cell_point (all_cells frames)).
Proof.
  unfold aggregate_density_over_time.
  rewrite aggregate_frames_flat, aggregate_cells_keys.
  cbn [keys map In]. intuition.
Qed.

(** ** Region filter *)

Section RegionFilter.

Local Open Scope Qc_scope.

Lemma in_region_iff (p : point) (r : region) :
  in_region p r = true <-> inside p r.
Proof.
  destruct r as [[a b] [c d]]. unfold in_region, inside. cbn [fst snd].
  rewrite !andb_true_iff, !num_leb_iff. intuition.
Qed.

Lemma filter_all (A : Type) (l : list A) : filter (fun _ => true) l = l.
Proof. induction l as [|x l IH]; cbn [filter]; [reflexivity|now rewrite IH]. Qed.

Variable t : point * num -> bool.

(** A loop that copies into [filtered] the items that fail the test [t]. *)
Lemma copy_loop_from (d : dict) :
  forall acc kv,
    In kv (fold_left (fun filtered kv =>
                        if t kv then filtered
                        else dict_set filtered (fst kv) (snd kv)) d acc) ->
    In kv acc \/ (In kv d /\ t kv = false).
Proof.
  induction d as [|[k0 v0] d IH]; cbn [fold_left]; intros acc kv H.
  - now left.
  - apply IH in H. destruct H as [H|[H1 H2]].
    + destruct (t (k0, v0)) eqn:E; [now left|]. cbn [fst snd] in H.
      apply dict_set_in in H. destruct H as [->|H]; [|now left].
      right. split; [now left|exact E].
    + right. split; [now right|exact H2].
Qed.

Lemma copy_loop_selects (d : dict) :
  forall acc,
    dict_wf d ->
    (forall k, In k (keys d) -> ~ In k (keys acc)) ->
    fold_left (fun filtered kv =>
                 if t kv then filtered
                 else dict_set filtered (fst kv) (snd kv)) d acc
    = acc ++ filter (fun kv => negb (t kv)) d.
Proof.
  unfold dict_wf.
  induction d as [|[k v] d IH]; cbn [fold_left filter]; intros acc Hwf Hfresh.
  - now rewrite app_nil_r.
  - cbn [keys map fst] in Hwf, Hfresh. inversion Hwf as [|? ? Hk Hd]. subst.
    pose proof (Hfresh k (or_introl eq_refl)) as Hka.
    destruct (t (k, v)); cbn [negb fst snd].
    + apply IH; [exact Hd|]. intros k' Hk'. apply Hfresh. now right.
    + rewrite IH; [|exact Hd|].
      * rewrite dict_set_fresh by exact Hka. now rewrite <- app_assoc.
      * intros k' Hk'. rewrite dict_set_keys. intros [->|H]; [contradiction|].
        exact (Hfresh k' (or_intror Hk') H).
Qed.

End RegionFilter.

(** What the region filter returns lies outside every rectangle. *)
Lemma filter_regions_outside (density_map : dict)
  (exclude_regions : list region) :
  Forall (fun kv =>
            In kv density_map
            /\ forall r, In r exclude_regions -> ~ inside (fst kv) r)
         (filter_geographic_regions density_map exclude_regions).
Proof.
  apply Forall_forall. intros kv H. unfold filter_geographic_regions in H.
  destruct exclude_regions as [|r0 rs] eqn:Er.
  - cbn [truthy negb] in H. split; [exact H|]. intros r [].
  - cbn [truthy negb] in H. rewrite <- Er in *.
    apply (copy_loop_from
             (fun kv => existsb (in_region (fst kv)) exclude_regions)) in H.
    destruct H as [[]|[H1 H2]]. split; [exact H1|].
    intros r Hr Hin. apply in_region_iff in Hin.
    assert (E : existsb (in_region (fst kv)) exclude_regions = true).
    { apply existsb_exists. now exists r. }
    congruence.
Qed.

(** X4. Every item that the region filter returns is an item of its input
    whose coordinate pair lies in none of the rectangles, bounds included:
    no cell inside an exclusion rectangle survives. *)
Theorem filter_regions_excludes (density_map : dict)
  (exclude_regions : list region) :
  Forall (fun kv =>
            In kv density_map
            /\ forall r, In r exclude_regions -> ~ inside (fst kv) r)
         (filter_geographic_regions density_map exclude_regions).
Proof. exact (filter_regions_outside density_map exclude_regions). Qed.

(** X5. On a dictionary the region filter removes nothing else: it returns
    the items of its input that lie in none of the rectangles, in the
    order of the input; with no rectangle it returns its input. *)
Theorem filter_regions_keeps_the_rest (density_map : dict)
  (exclude_regions : list region) :
  dict_wf density_map ->
  filter_geographic_regions density_map exclude_regions
  = filter (fun kv => negb (existsb (in_region (fst kv)) exclude_regions))
           density_map
  /\ filter_geographic_regions density_map [] = density_map.
Proof.
  intro Hwf. split; [|reflexivity]. unfold filter_geographic_regions.
  destruct exclude_regions as [|r0 rs] eqn:Er.
  - cbn [truthy negb existsb]. now rewrite filter_all.
  - cbn [truthy negb]. rewrite <- Er.
    rewrite (copy_loop_selects
               (fun kv => existsb (in_region (fst kv)) exclude_regions));
      [reflexivity|exact Hwf|].
    intros k _ [].
Qed.

Lemma distinctb_wf (d : dict) : distinctb (keys d) = true -> dict_wf d.
Proof.
  unfold dict_wf. induction (keys d) as [|x l IH]; cbn [distinctb]; intro H.
  - constructor.
  - apply andb_true_iff in H. destruct H as [H1 H2].
    constructor; [|now apply IH].
    intro Hin. apply negb_true_iff in H1.
    assert (E : existsb (point_eqb x) l = true).
    { apply existsb_exists. exists x. split; [exact Hin|].
      apply point_eqb_refl. }
    congruence.
Qed.

Lemma with_new_zealand_wf : dict_wf with_new_zealand.
Proof. apply distinctb_wf. reflexivity. Qed.

Lemma filter_regions_keeps_the_rest_witness :
  dict_wf with_new_zealand
  /\ filter_geographic_regions with_new_zealand [new_zealand]
     = filter (fun kv => negb (existsb (in_region (fst kv)) [new_zealand]))
              with_new_zealand
  /\ filter_geographic_regions with_new_zealand [] = with_new_zealand.
Proof.
  split; [exact with_new_zealand_wf|].
  exact (filter_regions_keeps_the_rest [new_zealand] with_new_zealand_wf).
Defined.

(** ** Flyway clusterer, further *)

Lemma cluster_step_wf (o : options) (d : dict) :
  forall w e,
    dict_wf w -> dict_wf e ->
    dict_wf (fst (fold_left (cluster_step o) d (w, e)))
    /\ dict_wf (snd (fold_left (cluster_step o) d (w, e))).
Proof.
  induction d as [|kv d IH]; cbn [fold_left]; intros w e Hw He.
  - now split.
  - rewrite cluster_step_keep. apply IH.
    + destruct (west_keep o (fst kv)); [now apply dict_set_wf|exact Hw].
    + destruct (east_keep o (fst kv)); [now apply dict_set_wf|exact He].
Qed.

Lemma cluster_split_wf (o : options) (d : dict) :
  dict_wf (fst (cluster_split d o)) /\ dict_wf (snd (cluster_split d o)).
Proof. unfold cluster_split. apply cluster_step_wf; constructor. Qed.

Lemma truthy_not_empty (A : Type) (l : list A) : truthy l = true -> l <> [].
Proof. destruct l; [discriminate|intros _; discriminate]. Qed.

(** At most two clusters come back, each inhabited and well formed. *)
Lemma clusters_inhabited (density_map : dict) (o : options) :
  (length (cluster_by_longitude density_map o) <= 2)%nat
  /\ Forall (fun c => c <> [] /\ dict_wf c)
            (cluster_by_longitude density_map o).
Proof.
  rewrite cluster_by_longitude_split.
  destruct (cluster_split_wf o density_map) as [Hw He]. revert Hw He.
  destruct (cluster_split density_map o) as [w e].
  cbn [fst snd]. intros Hw He. unfold omit_empty.
  assert (Hc : forall c, truthy c = true -> dict_wf c ->
                         c <> [] /\ dict_wf c).
  { intros c Hc1 Hc2. split; [now apply truthy_not_empty|exact Hc2]. }
  destruct (truthy w) eqn:Tw, (truthy e) eqn:Te; cbn [app length];
    (split; [lia|]); repeat first [apply Forall_nil | apply Forall_cons];
    cbn beta; apply Hc; assumption.
Qed.

(** X6. The clusterer returns at most two clusters; none of them is empty
    and each is a dictionary, with no key held twice. *)
Theorem clusters_few_and_inhabited (density_map : dict) (o : options) :
  (length (cluster_by_longitude density_map o) <= 2)%nat
  /\ Forall (fun c => c <> [] /\ dict_wf c)
            (cluster_by_longitude density_map o).
Proof. exact (clusters_inhabited density_map o). Qed.

(** X7. Under [americas_only] no eastern cluster is returned: the result
    holds at most one cluster, and all its keys have a longitude below
    -20. *)
Theorem americas_only_drops_east (density_map : dict) (o : options) :
  americas_only o = true ->
  (length (cluster_by_longitude density_map o) <= 1)%nat
  /\ Forall (fun c => Forall (fun k => (lon k < of_Z (-20))%Qc) (keys c))
            (cluster_by_longitude density_map o).
Proof.
  intro Ha. rewrite cluster_by_longitude_split.
  destruct (cluster_split density_map o) as [w e] eqn:E. cbn [fst snd].
  destruct (cluster_split_from o density_map [] [] E) as [Hw He].
  assert (Ee : e = []).
  { destruct e as [|kv e]; [reflexivity|]. exfalso.
    destruct (He kv (or_introl eq_refl)) as [[]|[_ K]].
    unfold east_keep in K. rewrite Ha in K.
    rewrite andb_false_r in K. discriminate K. }
  subst e. unfold omit_empty. cbn [truthy]. rewrite app_nil_r.
  destruct (truthy w); cbn [length]; (split; [lia|]); constructor;
    [|constructor].
  apply Forall_forall. intros k Hk. apply in_keys in Hk.
  destruct Hk as [v Hv]. destruct (Hw _ Hv) as [[]|[_ K]].
  apply west_keep_iff in K. exact (proj1 K).
Qed.

Lemma americas_only_drops_east_witness :
  americas_only (mkOptions 2 false None true false) = true
  /\ (length (cluster_by_longitude two_sides
                (mkOptions 2 false None true false)) <= 1)%nat
  /\ Forall (fun c => Forall (fun k => (lon k < of_Z (-20))%Qc) (keys c))
            (cluster_by_longitude two_sides
               (mkOptions 2 false None true false)).
Proof.
  split; [reflexivity|].
  exact (americas_only_drops_east two_sides
           (mkOptions 2 false None true false) eq_refl).
Defined.

(** ** Normalizer, further *)

Section NormalizerFurther.

Local Open Scope Qc_scope.

Lemma keys_map_value (f : point * num -> num) (d : dict) :
  keys (map (fun kv => (fst kv, f kv)) d) = keys d.
Proof.
  unfold keys. rewrite map_map. apply map_ext. reflexivity.
Qed.

(** The greatest value of a map that is not empty, as the call finds it. *)
Lemma greatest_value (d : dict) : d <> [] -> exists m, is_max_of d m.
Proof.
  intro H. destruct (py_max_values H) as (m & _ & Hm). now exists m.
Qed.

Lemma quotient_by_one (v : num) : v / of_Z 1 = v.
Proof.
  apply Qc_is_canon. rewrite this_div, this_of_Z.
  change (inject_Z 1) with 1%Q. field.
Qed.

Lemma quotient_at_most_one (v m : num) :
  v <= m -> of_Z 0 < m -> v / m <= of_Z 1.
Proof.
  intros Hm Hpos. unfold Qcle, Qclt in *. rewrite this_div.
  rewrite this_of_Z in *. change (inject_Z 0) with 0%Q in *.
  change (inject_Z 1) with 1%Q.
  apply Qle_shift_div_r; [exact Hpos|]. lra.
Qed.

End NormalizerFurther.

(** The normalizer returns on every map and keeps the keys. *)
Lemma normalize_densities_total (density_map : dict) :
  exists out,
    normalize_densities density_map = Ok out
    /\ keys out = keys density_map.
Proof.
  destruct density_map as [|kv0 d0] eqn:Ed.
  { exists []. split; reflexivity. }
  rewrite <- Ed.
  destruct (greatest_value (d := density_map)) as [m Hm];
    [rewrite Ed; discriminate|].
  destruct (Qc_eq_dec m (of_Z 0)) as [Hz|Hnz].
  - subst m. eexists. split; [apply (normalize_densities_zero Hm)|].
    apply (keys_map_value (fun _ => of_Z 0)).
  - eexists. split; [apply (normalize_densities_scaled Hm Hnz)|].
    apply (keys_map_value (fun kv => (snd kv / m)%Qc)).
Qed.

(** X8. The normalizer returns on every map, raising neither
    [ValueError] nor [ZeroDivisionError], and the map returned has the keys
    of its input, in the same order. *)
Theorem normalize_densities_returns (density_map : dict) :
  exists out,
    normalize_densities density_map = Ok out
    /\ keys out = keys density_map.
Proof. exact (normalize_densities_total density_map). Qed.

(** X9. Normalizing twice is normalizing once: on a map whose greatest
    value is not negative, the map returned is sent to itself. *)
Theorem normalize_densities_idempotent (density_map out : dict) (m : num) :
  is_max_of density_map m -> (of_Z 0 <= m)%Qc ->
  normalize_densities density_map = Ok out ->
  normalize_densities out = Ok out.
Proof.
  intros Hm Hpos H.
  destruct (Qc_eq_dec m (of_Z 0)) as [Hz|Hnz].
  - subst m. rewrite (normalize_densities_zero Hm) in H. injection H as <-.
    rewrite normalize_densities_zero.
    + rewrite map_map. reflexivity.
    + destruct Hm as [Hin _]. unfold is_max_of, values. rewrite map_map.
      cbn [snd]. split.
      * apply in_map_iff in Hin. destruct Hin as (kv & _ & Hkv).
        apply in_map_iff. now exists kv.
      * intros v Hv. apply in_map_iff in Hv. destruct Hv as (kv & <- & _).
        apply Qcle_refl.
  - rewrite (normalize_densities_scaled Hm Hnz) in H. injection H as <-.
    assert (Hlt : (of_Z 0 < m)%Qc).
    { destruct (Qcle_lt_or_eq _ _ Hpos) as [K|K]; [exact K|congruence]. }
    rewrite (normalize_densities_scaled (m := of_Z 1)).
    + rewrite map_map. cbn [fst snd]. f_equal. apply map_ext.
      intro kv. now rewrite quotient_by_one.
    + destruct Hm as [Hin Hub]. unfold is_max_of, values. rewrite map_map.
      cbn [snd]. split.
      * apply in_map_iff in Hin. destruct Hin as (kv & Hs & Hkv).
        apply in_map_iff. exists kv. split; [|exact Hkv].
        cbn [fst snd]. subst m. now apply quotient_self.
      * intros v Hv. apply in_map_iff in Hv. destruct Hv as (kv & <- & Hkv).
        apply quotient_at_most_one; [|exact Hlt].
        apply Hub. now apply in_map.
    + intro K. apply of_Z_eq_iff in K. discriminate K.
Qed.

Lemma normalize_densities_idempotent_witness :
  exists out,
    is_max_of densities (of_Z 8)
    /\ (of_Z 0 <= of_Z 8)%Qc
    /\ normalize_densities densities = Ok out
    /\ normalize_densities out = Ok out.
Proof.
  assert (Hm : is_max_of densities (of_Z 8)).
  { split; [right; now left|].
    intros v [<-|[<-|[]]]; apply num_leb_iff; reflexivity. }
  assert (Hp : (of_Z 0 <= of_Z 8)%Qc) by (apply num_leb_iff; reflexivity).
  destruct (normalize_densities densities) as [out|e] eqn:E;
    [|vm_compute in E; discriminate E].
  exists out. split; [exact Hm|]. split; [exact Hp|]. split; [reflexivity|].
  exact (normalize_densities_idempotent Hm Hp E).
Defined.

(** ** Path builder, further *)

Section Bands.

Local Open Scope Qc_scope.

Variable density_map : dict.
Variables north_point south_point : point.

Lemma max_from_in (A : Type) (key : A -> num) (l : list A) :
  forall best, In (max_from key best l) (best :: l).
Proof.
  induction l as [|x l IH]; intro best; cbn [max_from]; [now left|].
  destruct (IH (if num_ltb (key best) (key x) then x else best)) as [H|H].
  - rewrite <- H. destruct (num_ltb (key best) (key x));
      [right; now left|now left].
  - right. now right.
Qed.

(** A target latitude lies in its own band when the step is not negative. *)
Lemma target_in_band (lat_south lat_step : num) (i : Z) (x : num) :
  of_Z 0 <= lat_step ->
  in_band lat_south lat_step i (x, target_lat lat_south lat_step i).
Proof.
  intro Hs. unfold in_band, lat. cbn [snd]. unfold Qcle in *.
  rewrite this_minus, this_plus, this_div. unfold two.
  rewrite this_of_Z in *. change (inject_Z 0) with 0%Q in Hs.
  change (inject_Z 2) with 2%Q.
  set (t := this (target_lat lat_south lat_step i)).
  set (s := this lat_step) in *.
  assert (H : (0 <= s / 2)%Q).
  { apply Qle_shift_div_l; [reflexivity|]. lra. }
  split; lra.
Qed.

Lemma on_target_in_band (lat_south lat_step : num) (i : Z) (p : point) :
  of_Z 0 <= lat_step ->
  lat p = target_lat lat_south lat_step i ->
  in_band lat_south lat_step i p.
Proof.
  intros Hs E. destruct p as [a b]. unfold lat in E. cbn [snd] in E.
  subst b. now apply target_in_band.
Qed.

(** The waypoint that a turn of the loop appends lies in the band of that
    turn. *)
Lemma waypoint_step_in_band (lat_south lat_step : num)
  (path path' : list point) (i : Z) :
  of_Z 0 <= lat_step ->
  waypoint_step density_map south_point lat_south lat_step path i = Ok path' ->
  exists p, path' = path ++ [p] /\ in_band lat_south lat_step i p.
Proof.
  intros Hs. unfold waypoint_step. fold (target_lat lat_south lat_step i).
  match goal with |- context [filter ?f density_map] =>
    destruct (filter f density_map) as [|b bs] eqn:Ef end.
  - cbn [truthy].
    destruct (snoc_cases path) as [->|(r & x & ->)].
    + cbn [truthy]. intros [= <-]. eexists. split; [reflexivity|].
      now apply target_in_band.
    + rewrite truthy_snoc, list_get_last_snoc. cbn [bind].
      intros [= <-]. eexists. split; [reflexivity|].
      now apply target_in_band.
  - cbn [truthy py_max bind]. intros [= <-]. eexists.
    split; [reflexivity|].
    pose proof (max_from_in (fun x : point * num => snd x) bs b) as Hin.
    rewrite <- Ef in Hin. apply filter_In in Hin. destruct Hin as [_ Hin].
    apply andb_true_iff in Hin. destruct Hin as [H1 H2].
    apply num_leb_iff in H1. apply num_leb_iff in H2.
    split; assumption.
Qed.

Lemma band_loop (lat_south lat_step : num) :
  of_Z 0 <= lat_step ->
  forall n a path path',
    length path = a ->
    (forall j p, nth_error path j = Some p ->
                 in_band lat_south lat_step (Z.of_nat j) p) ->
    for_each (waypoint_step density_map south_point lat_south lat_step)
             path (map Z.of_nat (seq a n)) = Ok path' ->
    forall j p, nth_error path' j = Some p ->
                in_band lat_south lat_step (Z.of_nat j) p.
Proof.
  intro Hs. induction n as [|n IH]; intros a path path' Hlen Hinv;
    cbn [seq map for_each].
  - intros [= <-]. exact Hinv.
  - destruct (waypoint_step density_map south_point lat_south lat_step path
                (Z.of_nat a)) as [path1|e] eqn:E; [|discriminate].
    cbn [bind]. apply waypoint_step_in_band in E; [|exact Hs].
    destruct E as (p0 & -> & Hp0).
    apply IH.
    + rewrite length_app. cbn [length]. lia.
    + intros j p Hj.
      destruct (Nat.lt_ge_cases j (length path)) as [Hlt|Hge].
      * rewrite nth_error_app1 in Hj by exact Hlt. now apply Hinv.
      * rewrite nth_error_app2 in Hj by exact Hge.
        destruct (j - length path)%nat as [|k] eqn:Ek.
        -- cbn in Hj. injection Hj as <-.
           replace j with a by lia. exact Hp0.
        -- cbn in Hj. now destruct k.
Qed.

Lemma of_Z_positive (z : Z) : (0 < z)%Z -> of_Z 0 < of_Z z.
Proof.
  intro H. unfold Qclt. rewrite !this_of_Z. rewrite <- Zlt_Qlt. exact H.
Qed.

Lemma band_step_positive (n : Z) :
  lat south_point < lat north_point -> (2 <= n)%Z ->
  of_Z 0 < band_step north_point south_point n.
Proof.
  intros Hlt Hn. unfold band_step.
  assert (Hd : of_Z 0 < of_Z (n - 1)) by (apply of_Z_positive; lia).
  unfold Qclt in *. rewrite this_div, this_minus.
  rewrite this_of_Z in *. change (inject_Z 0) with 0%Q in *.
  apply Qlt_shift_div_l; [exact Hd|]. lra.
Qed.

Lemma of_Z_not_zero (z : Z) : z <> 0%Z -> of_Z z <> of_Z 0.
Proof. intros H E. apply of_Z_eq_iff in E. contradiction. Qed.

Lemma first_target (lat_step : num) :
  target_lat (lat south_point) lat_step 0 = lat south_point.
Proof. unfold target_lat. num_ring. Qed.

Lemma last_target (n : Z) :
  (2 <= n)%Z ->
  target_lat (lat south_point) (band_step north_point south_point n) (n - 1)
  = lat north_point.
Proof.
  intro Hn. unfold target_lat, band_step. apply Qc_is_canon.
  rewrite this_plus, this_mult, this_div, this_minus, this_of_Z.
  field. intro H. unfold Qeq in H. cbn in H. lia.
Qed.

(** With the north anchor above the south anchor and at least two
    waypoints, the loop returns a path [x :: mid ++ [y]] and the call
    returns it with its two ends replaced by the anchors. *)
Lemma calculate_migration_path_forces (n : Z) :
  lat south_point < lat north_point -> (2 <= n)%Z ->
  exists x mid y,
    for_each (waypoint_step density_map south_point (lat south_point)
                (band_step north_point south_point n)) [] (range n)
    = Ok (x :: mid ++ [y])
    /\ calculate_migration_path density_map north_point south_point n
       = Ok (south_point :: mid ++ [north_point])
    /\ Z.of_nat (length mid) = (n - 2)%Z.
Proof.
  intros Hlt Hn. unfold calculate_migration_path. rewrite minus_leb_0.
  apply num_leb_false_iff in Hlt. rewrite Hlt. unfold py_div.
  replace (num_eqb (of_Z (n - 1)) (of_Z 0)) with false.
  2:{ symmetry. destruct (num_eqb (of_Z (n - 1)) (of_Z 0)) eqn:E;
        [|reflexivity].
      apply num_eqb_iff, of_Z_eq_iff in E. lia. }
  cbn [bind]. fold (band_step north_point south_point n).
  destruct (for_each_waypoints density_map south_point (lat south_point)
              (band_step north_point south_point n) (range n) [])
    as (path & E & Hlen).
  rewrite E. cbn [bind].
  rewrite length_range in Hlen. cbn [length Nat.add] in Hlen.
  destruct path as [|x r]; [cbn in Hlen; lia|].
  destruct (snoc_cases r) as [->|(mid & y & ->)]; [cbn in Hlen; lia|].
  exists x, mid, y. split; [reflexivity|]. split.
  - apply force_ends.
  - cbn [length] in Hlen. rewrite length_app in Hlen. cbn [length] in Hlen.
    lia.
Qed.

End Bands.

(** X10. With the north anchor above the south anchor, a count of at least
    two gives a path of exactly that many waypoints, and a count of zero or
    less makes the call raise [IndexError] at [path[0]]. *)
Theorem path_has_num_waypoints (density_map : dict)
  (north_point south_point : point) (num_waypoints : Z) :
  (lat south_point < lat north_point)%Qc ->
  ((2 <= num_waypoints)%Z ->
   exists path,
     calculate_migration_path density_map north_point south_point
       num_waypoints = Ok path
     /\ len path = num_waypoints)
  /\ ((num_waypoints <= 0)%Z ->
      calculate_migration_path density_map north_point south_point
        num_waypoints = Raise IndexError).
Proof.
  intro Hlt. apply num_leb_false_iff in Hlt.
  destruct (calculate_migration_path_cases density_map north_point
              south_point num_waypoints)
    as [(Hle & E)|[(_ & Hn & E)|[(_ & Hn & E)|(_ & Hn & mid & E & Hm)]]];
    [congruence| | |]; (split; [intro H2|intro H0]); try lia.
  - exact E.
  - exists (south_point :: mid ++ [north_point]). split; [exact E|].
    unfold len. cbn [length]. rewrite length_app. cbn [length]. lia.
Qed.

Lemma path_has_num_waypoints_witness :
  (lat (pt 0 0) < lat (pt 10 24))%Qc
  /\ ((2 <= 25)%Z ->
      exists path,
        calculate_migration_path rival (pt 10 24) (pt 0 0) 25 = Ok path
        /\ len path = 25%Z)
  /\ ((25 <= 0)%Z ->
      calculate_migration_path rival (pt 10 24) (pt 0 0) 25
      = Raise IndexError).
Proof.
  assert (H : (lat (pt 0 0) < lat (pt 10 24))%Qc)
    by (apply num_ltb_iff; reflexivity).
  split; [exact H|].
  exact (path_has_num_waypoints rival (pt 10 24) (pt 0 0) 25 H).
Defined.

(** Every waypoint of a returned path lies in the band of its index. *)
Lemma returned_path_in_bands (density_map : dict)
  (north_point south_point : point) (num_waypoints : Z)
  (path : list point) :
  (lat south_point < lat north_point)%Qc -> (2 <= num_waypoints)%Z ->
  calculate_migration_path density_map north_point south_point num_waypoints
  = Ok path ->
  forall i p,
    nth_error path i = Some p ->
    in_band (lat south_point)
            (band_step north_point south_point num_waypoints)
            (Z.of_nat i) p.
Proof.
  intros Hlt Hn H.
  destruct (calculate_migration_path_forces density_map north_point
              south_point Hlt Hn)
    as (x & mid & y & Eloop & E & Hmid).
  rewrite E in H. injection H as <-.
  pose proof (band_step_positive north_point south_point Hlt Hn) as Hpos.
  apply Qclt_le_weak in Hpos.
  assert (Hraw : forall j p, nth_error (x :: mid ++ [y]) j = Some p ->
                   in_band (lat south_point)
                     (band_step north_point south_point num_waypoints)
                     (Z.of_nat j) p).
  { apply (band_loop density_map south_point Hpos
             (Z.to_nat num_waypoints) (a := 0) []);
      [reflexivity|intros [|j] p; discriminate|exact Eloop]. }
  intros i p Hi. destruct i as [|i].
  - cbn in Hi. injection Hi as <-.
    apply on_target_in_band; [exact Hpos|].
    symmetry. apply first_target.
  - cbn [nth_error] in Hi.
    destruct (Nat.lt_ge_cases i (length mid)) as [Hi1|Hi1].
    + apply (Hraw (S i)). cbn [nth_error].
      rewrite nth_error_app1 in * by exact Hi1. exact Hi.
    + rewrite nth_error_app2 in Hi by exact Hi1.
      destruct (i - length mid)%nat as [|k] eqn:Ek;
        [|cbn in Hi; now destruct k].
      cbn in Hi. injection Hi as <-.
      replace (Z.of_nat (S i)) with (num_waypoints - 1)%Z by lia.
      apply on_target_in_band; [exact Hpos|].
      symmetry. now apply last_target.
Qed.

(** X11. With the north anchor above the south anchor and at least two
    waypoints, every waypoint of the returned path, the forced ends
    included, has its latitude in the band of its index: within half a
    step of the target latitude [lat_south + i * lat_step]. *)
Theorem waypoints_in_their_bands (density_map : dict)
  (north_point south_point : point) (num_waypoints : Z)
  (path : list point) :
  (lat south_point < lat north_point)%Qc -> (2 <= num_waypoints)%Z ->
  calculate_migration_path density_map north_point south_point num_waypoints
  = Ok path ->
  forall i p,
    nth_error path i = Some p ->
    in_band (lat south_point)
            (band_step north_point south_point num_waypoints)
            (Z.of_nat i) p.
Proof.
  intros Hlt Hn H.
  exact (returned_path_in_bands density_map north_point south_point Hlt Hn H).
Qed.

Lemma waypoints_in_their_bands_witness :
  exists path,
    (lat (pt 0 0) < lat (pt 10 24))%Qc /\ (2 <= 25)%Z
    /\ calculate_migration_path rival (pt 10 24) (pt 0 0) 25 = Ok path
    /\ forall i p,
         nth_error path i = Some p ->
         in_band (lat (pt 0 0)) (band_step (pt 10 24) (pt 0 0) 25)
                 (Z.of_nat i) p.
Proof.
  assert (H : (lat (pt 0 0) < lat (pt 10 24))%Qc)
    by (apply num_ltb_iff; reflexivity).
  assert (H2 : (2 <= 25)%Z) by lia.
  destruct (calculate_migration_path rival (pt 10 24) (pt 0 0) 25)
    as [path|e] eqn:E; [|vm_compute in E; discriminate E].
  exists path. split; [exact H|]. split; [exact H2|].
  split; [reflexivity|].
  exact (waypoints_in_their_bands rival (pt 10 24) (pt 0 0) H H2 E).
Defined.

Lemma next_band_starts_where_band_ends (lat_south lat_step : num) (i : nat) :
  (target_lat lat_south lat_step (Z.of_nat i) + lat_step / two
   = target_lat lat_south lat_step (Z.of_nat (S i)) - lat_step / two)%Qc.
Proof.
  unfold target_lat, two. apply Qc_is_canon.
  rewrite this_plus, this_minus, !this_plus, !this_mult, this_div,
    !this_of_Z.
  rewrite Nat2Z.inj_succ, <- Z.add_1_r, inject_Z_plus.
  change (inject_Z 2) with 2%Q. change (inject_Z 1) with 1%Q. field.
Qed.

(** X12. With the north anchor above the south anchor and at least two
    waypoints, the returned path never turns back south: the latitude of a
    waypoint is at most the latitude of the next one.  (Consecutive bands
    meet at one latitude; the numbers are exact.) *)
Theorem latitudes_never_decrease (density_map : dict)
  (north_point south_point : point) (num_waypoints : Z)
  (path : list point) :
  (lat south_point < lat north_point)%Qc -> (2 <= num_waypoints)%Z ->
  calculate_migration_path density_map north_point south_point num_waypoints
  = Ok path ->
  forall i p q,
    nth_error path i = Some p -> nth_error path (S i) = Some q ->
    (lat p <= lat q)%Qc.
Proof.
  intros Hlt Hn H i p q Hp Hq.
  destruct (returned_path_in_bands density_map north_point south_point
              Hlt Hn H i Hp) as [_ Hup].
  destruct (returned_path_in_bands density_map north_point south_point
              Hlt Hn H (S i) Hq) as [Hlow _].
  rewrite next_band_starts_where_band_ends in Hup.
  exact (Qcle_trans _ _ _ Hup Hlow).
Qed.

Lemma latitudes_never_decrease_witness :
  exists path,
    (lat (pt 0 0) < lat (pt 10 24))%Qc /\ (2 <= 25)%Z
    /\ calculate_migration_path rival (pt 10 24) (pt 0 0) 25 = Ok path
    /\ forall i p q,
         nth_error path i = Some p -> nth_error path (S i) = Some q ->
         (lat p <= lat q)%Qc.
Proof.
  assert (H : (lat (pt 0 0) < lat (pt 10 24))%Qc)
    by (apply num_ltb_iff; reflexivity).
  assert (H2 : (2 <= 25)%Z) by lia.
  destruct (calculate_migration_path rival (pt 10 24) (pt 0 0) 25)
    as [path|e] eqn:E; [|vm_compute in E; discriminate E].
  exists path. split; [exact H|]. split; [exact H2|].
  split; [reflexivity|].
  exact (latitudes_never_decrease rival (pt 10 24) (pt 0 0) H H2 E).
Defined.

(** ** Path smoother, further *)

Section Smoother.

Lemma mapM_returns (A B : Type) (f : A -> result B) (l : list A) :
  (forall x, In x l -> exists y, f x = Ok y) ->
  exists ys, mapM f l = Ok ys /\ length ys = length l.
Proof.
  induction l as [|x l IH]; intro H; cbn [mapM].
  - exists []. split; reflexivity.
  - destruct (H x (or_introl eq_refl)) as [y ->]. cbn [bind].
    destruct IH as (ys & -> & Hlen); [intros; apply H; now right|].
    cbn [bind]. exists (y :: ys). split; [reflexivity|].
    cbn [length]. now rewrite Hlen.
Qed.

Lemma in_range (n i : Z) : In i (range n) -> (0 <= i < n)%Z.
Proof.
  unfold range. intro H. apply in_map_iff in H.
  destruct H as (k & <- & Hk). apply in_seq in Hk. lia.
Qed.

(** A slice between two bounds inside the list has their distance as its
    length. *)
Lemma py_slice_length (A : Type) (l : list A) (start stop : Z) :
  (0 <= start)%Z -> (start <= stop)%Z -> (stop <= len l)%Z ->
  len (py_slice l start stop) = (stop - start)%Z.
Proof.
  unfold len, py_slice, clamp_bound. intros H0 H1 H2.
  destruct (Z.ltb_spec start 0) as [K|_]; [lia|].
  destruct (Z.ltb_spec stop 0) as [K|_]; [lia|].
  rewrite length_firstn, length_skipn. lia.
Qed.

Lemma smooth_point_returns (path : list point) (half_window i : Z) :
  (0 <= half_window)%Z -> (0 <= i < len path)%Z ->
  exists p, smooth_point path half_window i = Ok p.
Proof.
  intros Hh Hi. unfold smooth_point.
  assert (Hlen : (1 <= len (py_slice path (Z.max 0 (i - half_window))
                             (Z.min (len path) (i + half_window + 1))))%Z).
  { rewrite py_slice_length; lia. }
  unfold py_div.
  match goal with |- context [num_eqb ?a ?b] =>
    replace (num_eqb a b) with false end.
  - cbn [bind]. eexists. reflexivity.
  - symmetry. match goal with |- ?b = false =>
      destruct b eqn:E; [|reflexivity] end.
    apply num_eqb_iff, of_Z_eq_iff in E. lia.
Qed.

Lemma smooth_path_returns (path : list point) (window_size : Z) :
  (0 <= window_size)%Z ->
  exists out,
    smooth_path path window_size = Ok out /\ length out = length path.
Proof.
  intro Hw. unfold smooth_path.
  destruct (len path <=? window_size)%Z.
  - exists path. split; reflexivity.
  - destruct (mapM_returns (smooth_point path (window_size / 2))
                (range (len path))) as (out & E & Hlen).
    + intros i Hi. apply in_range in Hi.
      apply smooth_point_returns; [|exact Hi].
      apply Z.div_pos; lia.
    + exists out. split; [exact E|].
      rewrite Hlen, length_range. unfold len. lia.
Qed.

End Smoother.

(** X13. With a window size that is not negative the smoother returns on
    every path, never dividing by an empty window, and the smoothed path
    has as many points as the path given. *)
Theorem smooth_path_keeps_length (path : list point) (window_size : Z) :
  (0 <= window_size)%Z ->
  exists out,
    smooth_path path window_size = Ok out /\ length out = length path.
Proof. exact (smooth_path_returns path (window_size := window_size)). Qed.

Lemma smooth_path_keeps_length_witness :
  (0 <= 5)%Z
  /\ exists out,
       smooth_path six_points 5 = Ok out /\ length out = length six_points.
Proof.
  assert (H : (0 <= 5)%Z) by lia.
  split; [exact H|]. exact (smooth_path_keeps_length six_points H).
Defined.

(** ** Orchestration, further *)

Section Orchestration.

Lemma mapM_from (A B : Type) (f : A -> result B) (l : list A) :
  forall ys,
    mapM f l = Ok ys ->
    Forall (fun y => exists x, In x l /\ f x = Ok y) ys.
Proof.
  induction l as [|x l IH]; cbn [mapM]; intros ys H.
  - injection H as <-. constructor.
  - destruct (f x) as [y|e] eqn:Ex; [|discriminate]. cbn [bind] in H.
    destruct (mapM f l) as [ys'|e] eqn:El; [|discriminate].
    cbn [bind] in H. injection H as <-. constructor.
    + exists x. split; [now left|exact Ex].
    + specialize (IH ys' eq_refl). rewrite Forall_forall in *.
      intros y' Hy. destruct (IH y' Hy) as (x' & Hx' & E).
      exists x'. split; [now right|exact E].
Qed.

(** On a cluster with a cell, the extremes are found, the path is built
    with 25 waypoints and smoothed with the window 5 without an exception;
    the path written has two points when the cluster is flat and 25
    otherwise. *)
Lemma flyway_returns (cluster : dict) :
  cluster <> [] ->
  exists r,
    flyway cluster = Ok r
    /\ (length (path r) = 2%nat \/ length (path r) = 25%nat).
Proof.
  intro Hne. destruct (find_extremes_ends Hne) as (n & s & E & _ & _).
  unfold flyway. rewrite E. cbn [bind].
  destruct (calculate_migration_path_cases cluster (fst n) (fst s) 25)
    as [(_ & Ep)|[(_ & Hn & _)|[(_ & Hn & _)|(_ & _ & mid & Ep & Hm)]]];
    try lia; rewrite Ep; cbn [bind].
  - change (smooth_path [fst s; fst n] 5) with (Ok [fst s; fst n]).
    cbn [bind]. eexists. split; [reflexivity|]. left. reflexivity.
  - destruct (smooth_path_returns (fst s :: mid ++ [fst n])
                (window_size := 5)) as (out & -> & Hlen); [lia|].
    cbn [bind]. eexists. split; [reflexivity|]. right.
    cbn [path]. rewrite length_map, Hlen. cbn [length].
    rewrite length_app. cbn [length]. lia.
Qed.

Lemma aggregate_empty_iff (frames : list frame) :
  aggregate_density_over_time frames = [] <-> all_cells frames = [].
Proof.
  unfold aggregate_density_over_time. rewrite aggregate_frames_flat.
  split; intro H.
  - destruct (all_cells frames) as [|c cs]; [reflexivity|]. exfalso.
    assert (Hk : In (cell_point c)
                    (keys (fold_left aggregate_cell (c :: cs) []))).
    { apply aggregate_cells_keys. right. now left. }
    rewrite H in Hk. exact Hk.
  - rewrite H. reflexivity.
Qed.

Lemma build_migration_json_total (frames : list frame)
  (species_name : string) (exclude_regions : list region) (o : options) :
  exists written,
    build_migration_json frames species_name exclude_regions o = Ok written
    /\ (written = None <-> all_cells frames = [])
    /\ forall data,
         written = Some data ->
         speciesName data = species_name
         /\ color data = "#8b0000"%string
         /\ (length (paths data) <= 2)%nat
         /\ Forall (fun r => length (path r) = 2%nat
                             \/ length (path r) = 25%nat) (paths data).
Proof.
  unfold build_migration_json.
  destruct (aggregate_density_over_time frames) as [|kv d] eqn:Ea.
  { cbn [truthy negb]. exists None. split; [reflexivity|].
    split; [|discriminate].
    split; [intros _; now apply aggregate_empty_iff|reflexivity]. }
  cbn [truthy negb].
  match goal with |- context [normalize_densities ?m] =>
    destruct (normalize_densities_total m) as (normalized & -> & _) end.
  cbn [bind].
  destruct (clusters_inhabited normalized o) as [Hlen Hall].
  destruct (mapM_returns flyway (cluster_by_longitude normalized o))
    as (ps & Ep & Hps).
  { intros c Hc. rewrite Forall_forall in Hall.
    destruct (flyway_returns (proj1 (Hall c Hc))) as (r & Er & _).
    now exists r. }
  rewrite Ep. cbn [bind]. eexists. split; [reflexivity|].
  split.
  - split; [discriminate|]. intro H. apply aggregate_empty_iff in H.
    rewrite H in Ea. discriminate Ea.
  - intros data [= <-]. cbn [speciesName color paths].
    split; [reflexivity|]. split; [reflexivity|]. split; [lia|].
    apply mapM_from in Ep. rewrite Forall_forall in *.
    intros r Hr. destruct (Ep r Hr) as (c & Hc & Er).
    destruct (flyway_returns (proj1 (Hall c Hc))) as (r' & Er' & Hr').
    rewrite Er in Er'. injection Er' as <-. exact Hr'.
Qed.

End Orchestration.

(** X14. No exception leaves [build_migration_json] on a loaded heatmap.
    The call writes nothing exactly when no frame has a cell; otherwise it
    writes a record with the species name given, the colour [#8b0000] and
    at most two paths, each of two or of 25 points. *)
Theorem build_migration_json_returns (frames : list frame)
  (species_name : string) (exclude_regions : list region) (o : options) :
  exists written,
    build_migration_json frames species_name exclude_regions o = Ok written
    /\ (written = None <-> all_cells frames = [])
    /\ forall data,
         written = Some data ->
         speciesName data = species_name
         /\ color data = "#8b0000"%string
         /\ (length (paths data) <= 2)%nat
         /\ Forall (fun r => length (path r) = 2%nat
                             \/ length (path r) = 25%nat) (paths data).
Proof.
  exact (build_migration_json_total frames species_name exclude_regions o).
Qed.

(** X15. When every cell of the heatmap lies in an exclusion rectangle, the
    call does not take the no-output return: it writes a record whose list
    of paths is empty. *)
Theorem all_cells_excluded_writes_no_path (frames : list frame)
  (species_name : string) (exclude_regions : list region) (o : options) :
  all_cells frames <> [] ->
  (forall c, In c (all_cells frames) ->
             exists r, In r exclude_regions /\ inside (cell_point c) r) ->
  build_migration_json frames species_name exclude_regions o
  = Ok (Some (mkOutput species_name "#8b0000"%string [])).
Proof.
  intros Hne Hin. unfold build_migration_json.
  destruct (aggregate_density_over_time frames) as [|kv d] eqn:Ea.
  { apply aggregate_empty_iff in Ea. contradiction. }
  cbn [truthy negb]. rewrite <- Ea.
  assert (Ht : truthy exclude_regions = true).
  { destruct (all_cells frames) as [|c cs]; [contradiction|].
    destruct (Hin c (or_introl eq_refl)) as (r & Hr & _).
    destruct exclude_regions; [destruct Hr|reflexivity]. }
  rewrite Ht.
  assert (Ef : filter_geographic_regions
                 (aggregate_density_over_time frames) exclude_regions = []).
  { pose proof (filter_regions_outside (aggregate_density_over_time frames)
                  exclude_regions) as Hout.
    destruct (filter_geographic_regions (aggregate_density_over_time frames)
                exclude_regions) as [|kv' d']; [reflexivity|]. exfalso.
    inversion Hout as [|? ? [Hkv Hfree] _]. subst.
    assert (Hk : In (fst kv') (map cell_point (all_cells frames))).
    { unfold aggregate_density_over_time in Hkv.
      rewrite aggregate_frames_flat in Hkv.
      assert (K : In (fst kv')
                     (keys (fold_left aggregate_cell (all_cells frames) [])))
        by (now apply in_map).
      apply aggregate_cells_keys in K. destruct K as [[]|K]. exact K. }
    apply in_map_iff in Hk. destruct Hk as (c & Ec & Hc).
    destruct (Hin c Hc) as (r & Hr & Hins). rewrite Ec in Hins.
    exact (Hfree r Hr Hins). }
  rewrite Ef. reflexivity.
Qed.

Lemma all_cells_excluded_writes_no_path_witness :
  all_cells [mkFrame "2024-01-01" [(of_Z 170, of_Z (-40), of_Z 1)]] <> []
  /\ (forall c,
        In c (all_cells
                [mkFrame "2024-01-01" [(of_Z 170, of_Z (-40), of_Z 1)]]) ->
        exists r, In r [new_zealand] /\ inside (cell_point c) r)
  /\ build_migration_json
       [mkFrame "2024-01-01" [(of_Z 170, of_Z (-40), of_Z 1)]]
       "Canada Goose"%string [new_zealand] default_options
     = Ok (Some (mkOutput "Canada Goose"%string "#8b0000"%string [])).
Proof.
  assert (H1 : all_cells
                 [mkFrame "2024-01-01" [(of_Z 170, of_Z (-40), of_Z 1)]]
               <> []) by discriminate.
  assert (H2 : forall c,
            In c (all_cells
                    [mkFrame "2024-01-01"
                       [(of_Z 170, of_Z (-40), of_Z 1)]]) ->
            exists r, In r [new_zealand] /\ inside (cell_point c) r).
  { intros c [<-|[]]. exists new_zealand. split; [now left|].
    apply in_region_iff. reflexivity. }
  split; [exact H1|]. split; [exact H2|].
  exact (@all_cells_excluded_writes_no_path _ "Canada Goose"%string _
           default_options H1 H2).
Defined.

(** ** Flat clusters *)

Section Flat.

Local Open Scope Qc_scope.

Variable cluster : dict.
Variable level : num.
Hypothesis flat : forall kv, In kv cluster -> lat_key kv = level.

Lemma flat_first_min (s : point * num) :
  first_min lat_key cluster s -> exists post, cluster = s :: post.
Proof.
  intros (pre & post & E & Hpre & _). destruct pre as [|y pre].
  - now exists post.
  - exfalso. inversion Hpre as [|? ? Hlt _]. subst.
    rewrite (flat y), (flat s) in Hlt.
    + exact (Qclt_not_le _ _ Hlt (Qcle_refl _)).
    + apply in_elt.
    + now left.
Qed.

Lemma flat_last_max (n : point * num) :
  last_max lat_key cluster n -> exists pre, cluster = pre ++ [n].
Proof.
  intros (pre & post & E & _ & Hpost). destruct post as [|y post].
  - now exists pre.
  - exfalso. inversion Hpost as [|? ? Hlt _]. subst.
    rewrite (flat y), (flat n) in Hlt.
    + exact (Qclt_not_le _ _ Hlt (Qcle_refl _)).
    + apply in_elt.
    + apply in_or_app. right. right. now left.
Qed.

End Flat.

(** X16. A cluster whose cells all lie on one latitude, a single cell
    included, gives a record whose path has just two points: the first
    key of the cluster, which is also its south point, and the last key,
    which is also its north point, both rounded and not smoothed. *)
Theorem flat_cluster_two_points (k0 : point) (v0 : num) (rest : dict) :
  (forall k, In k (keys ((k0, v0) :: rest)) -> lat k = lat k0) ->
  flyway ((k0, v0) :: rest)
  = Ok (mkPathRecord
          (round_point (last (keys ((k0, v0) :: rest)) k0))
          (round_point k0)
          [round_point k0;
           round_point (last (keys ((k0, v0) :: rest)) k0)]).
Proof.
  intro Hflat. set (cluster := (k0, v0) :: rest) in *.
  assert (Hf : forall kv, In kv cluster -> lat_key kv = lat k0).
  { intros kv Hkv. apply Hflat. now apply in_map. }
  assert (Hne : cluster <> []) by discriminate.
  destruct (find_extremes_ends Hne) as (n & s & E & Hs & Hn).
  destruct (flat_first_min Hf Hs) as (post & Es).
  destruct (flat_last_max Hf Hn) as (pre & En).
  assert (Ek : fst s = k0).
  { unfold cluster in Es. injection Es as <- _. reflexivity. }
  assert (El : last (keys cluster) k0 = fst n).
  { rewrite En, keys_app. cbn [keys map]. apply last_last. }
  rewrite El. unfold flyway. rewrite E, Ek. cbn [bind].
  assert (Hle : num_leb (lat (fst n)) (lat k0) = true).
  { apply num_leb_iff. rewrite (Hflat (fst n)); [apply Qcle_refl|].
    apply in_map. rewrite En. apply in_or_app. right. now left. }
  destruct (calculate_migration_path_cases cluster (fst n) k0 25)
    as [(_ & Ep)|[(K & _)|[(K & _)|(K & _)]]]; try congruence.
  rewrite Ep. cbn [bind].
  change (smooth_path [k0; fst n] 5) with (Ok [k0; fst n]).
  reflexivity.
Qed.

Lemma flat_cluster_two_points_witness :
  (forall k, In k (keys ((pt 0 5, of_Z 1) :: [(pt 1 5, of_Z 1)])) ->
             lat k = lat (pt 0 5))
  /\ flyway ((pt 0 5, of_Z 1) :: [(pt 1 5, of_Z 1)])
     = Ok (mkPathRecord
             (round_point
                (last (keys ((pt 0 5, of_Z 1) :: [(pt 1 5, of_Z 1)]))
                      (pt 0 5)))
             (round_point (pt 0 5))
             [round_point (pt 0 5);
              round_point
                (last (keys ((pt 0 5, of_Z 1) :: [(pt 1 5, of_Z 1)]))
                      (pt 0 5))]).
Proof.
  assert (H : forall k,
            In k (keys ((pt 0 5, of_Z 1) :: [(pt 1 5, of_Z 1)])) ->
            lat k = lat (pt 0 5)).
  { intros k [<-|[<-|[]]]; reflexivity. }
  split; [exact H|].
  exact (@flat_cluster_two_points (pt 0 5) (of_Z 1) [(pt 1 5, of_Z 1)] H).
Defined.

(** ** The densest cell of each band *)

Section Densest.

Local Open Scope Qc_scope.

Variable density_map : dict.
Variables north_point south_point : point.





End Densest.



(** ** Windows of one point *)

Section SinglePoint.

Local Open Scope Qc_scope.

Lemma py_slice_single (A : Type) (l : list A) (i : nat) (x : A) :
  nth_error l i = Some x ->
  py_slice l (Z.of_nat i) (Z.of_nat i + 1) = [x].
Proof.
  intro H.
  assert (Hi : (i < length l)%nat) by (apply nth_error_Some; congruence).
  unfold py_slice, clamp_bound.
  destruct (Z.ltb_spec (Z.of_nat i) 0) as [K|_]; [lia|].
  destruct (Z.ltb_spec (Z.of_nat i + 1) 0) as [K|_]; [lia|].
  replace (Z.to_nat (Z.min (Z.of_nat (length l)) (Z.max 0 (Z.of_nat i))))
    with i by lia.
  replace (Z.to_nat (Z.min (Z.of_nat (length l))
                           (Z.max 0 (Z.of_nat i + 1)))) with (S i) by lia.
  replace (S i - i)%nat with 1%nat by lia.
  rewrite <- hd_error_skipn in H.
  destruct (skipn i l) as [|y r]; [discriminate|].
  cbn in H. injection H as ->. reflexivity.
Qed.

Lemma mean_of_one (x : num) :
  py_div (py_sum [x]) (of_Z (len [x])) = Ok x.
Proof.
  unfold py_div, len. cbn [length].
  replace (num_eqb (of_Z (Z.of_nat 1)) (of_Z 0)) with false by reflexivity.
  change (of_Z (Z.of_nat 1)) with (of_Z 1).
  rewrite quotient_by_one. unfold py_sum. cbn [fold_left].
  change (of_Z 0) with 0. now rewrite Qcplus_0_l.
Qed.

Lemma smooth_point_single (path : list point) (i : nat) (p : point) :
  nth_error path i = Some p ->
  smooth_point path 0 (Z.of_nat i) = Ok p.
Proof.
  intro H.
  assert (Hi : (i < length path)%nat) by (apply nth_error_Some; congruence).
  unfold smooth_point.
  replace (Z.max 0 (Z.of_nat i - 0)) with (Z.of_nat i) by lia.
  replace (Z.min (len path) (Z.of_nat i + 0 + 1)) with (Z.of_nat i + 1)%Z
    by (unfold len; lia).
  rewrite (py_slice_single path i H). cbn [map].
  rewrite !mean_of_one. cbn [bind]. now destruct p.
Qed.

Lemma smooth_points_single (l2 : list point) :
  forall l1,
    mapM (smooth_point (l1 ++ l2) 0)
         (map Z.of_nat (seq (length l1) (length l2)))
    = Ok l2.
Proof.
  induction l2 as [|x r IH]; intro l1; cbn [length seq map mapM];
    [reflexivity|].
  rewrite (@smooth_point_single (l1 ++ x :: r) (length l1) x).
  - cbn [bind]. specialize (IH (l1 ++ [x])).
    rewrite <- app_assoc in IH. cbn [app] in IH.
    rewrite length_app in IH. cbn [length] in IH.
    replace (length l1 + 1)%nat with (S (length l1)) in IH by lia.
    rewrite IH. reflexivity.
  - rewrite nth_error_app2 by lia. rewrite Nat.sub_diag. reflexivity.
Qed.

End SinglePoint.

(** X19. A window size of 0 or 1 is no smoothing: every window holds one
    point, and the smoother returns the path given, however long. *)
Theorem smooth_path_window_of_one (path : list point) (window_size : Z) :
  (0 <= window_size <= 1)%Z -> smooth_path path window_size = Ok path.
Proof.
  intro Hw. unfold smooth_path.
  destruct (len path <=? window_size)%Z; [reflexivity|].
  replace (window_size / 2)%Z with 0%Z.
  - unfold range, len. rewrite Nat2Z.id.
    exact (smooth_points_single path []).
  - assert (K : window_size = 0%Z \/ window_size = 1%Z) by lia.
    destruct K as [->| ->]; reflexivity.
Qed.

Lemma smooth_path_window_of_one_witness :
  (0 <= 1 <= 1)%Z /\ smooth_path six_points 1 = Ok six_points.
Proof.
  assert (H : (0 <= 1 <= 1)%Z) by lia.
  split; [exact H|]. exact (smooth_path_window_of_one six_points H).
Defined.
